(** * Github-Issue-to-PDF: a shallow embedding of [Github-Issue-to-PDF.py]

    The script pages through the issue listing of one repository, fetches the
    comments of every issue, assembles an HTML document, inlines its images
    and hands the document to the PDF renderer.

    Modelling choices.
    - Python values coming from the GitHub API are decoded into typed records
      ([Issue], [Comment]); a key read with [d.get(k, default)] is an
      [option] field, a key read with [d[k]] is a plain field. The values
      are of the types that the API documents: [None] is an absent key, and
      also a null value where the script treats both alike ([body], [user],
      [milestone], [locked]); a null [title], [state] or [created_at] is not
      part of the model.
    - The outside world (HTTP endpoints, markdown2, BeautifulSoup, pdfkit, the
      wall clock) is an [Environment] of functions: the answer to a request
      depends on the request only.
    - [sess.get] answers with a response or raises a transport exception;
      the payload of a response is already decoded ([resp.json()] does not
      raise), and the operations on the file system succeed.
    - Effects are recorded as a trace of [Event]s in the order in which the
      script performs them; an exception is an [Outcome]. [WritePdf] records
      a call of the renderer that has returned; what a call that raises
      leaves on the disk is not observed.
    - A [Session] lists the headers that the script sets on it; the headers
      that a session of the requests library has from the start (User-Agent,
      Accept-Encoding, Accept, Connection) are the same for every request
      and are not listed.
    - [while True] loops take fuel; [None] means that the fuel ran out.
    - Strings are sequences of 8-bit characters; so are the bytes of a
      response. *)

From Stdlib Require Import String Ascii List ZArith Lia Bool Arith PeanoNat.
From Stdlib Require Import DecimalString DecimalPos DecimalZ DecimalNat.
Import ListNotations.
Set Warnings "-register-all".
Open Scope list_scope.
Open Scope string_scope.

(** ** Python strings *)

Definition dq : string := String "034"%char EmptyString.
Definition nl : string := String "010"%char EmptyString.

Definition str_nat (n : nat) : string := NilZero.string_of_uint (Nat.to_uint n).
Definition str_Z (z : Z) : string := NilZero.string_of_int (Z.to_int z).

(** [sep.join(parts)] *)
Fixpoint join (sep : string) (parts : list string) : string :=
  match parts with
  | [] => ""
  | [p] => p
  | p :: rest => p ++ sep ++ join sep rest
  end.

Definition lower_ascii (c : ascii) : ascii :=
  let n := nat_of_ascii c in
  if ((65 <=? n)%nat && (n <=? 90)%nat)%bool then ascii_of_nat (n + 32) else c.

Definition upper_ascii (c : ascii) : ascii :=
  let n := nat_of_ascii c in
  if ((97 <=? n)%nat && (n <=? 122)%nat)%bool then ascii_of_nat (n - 32) else c.

Fixpoint map_string (f : ascii -> ascii) (s : string) : string :=
  match s with
  | EmptyString => EmptyString
  | String c r => String (f c) (map_string f r)
  end.

(** [s.lower()] and [s.upper()] on the ASCII range *)
Definition lower : string -> string := map_string lower_ascii.
Definition upper : string -> string := map_string upper_ascii.

(** [s.startswith(p)] *)
Definition startswith (p s : string) : bool := String.prefix p s.

(** ** Exceptions, events and the effect monad *)

(** [SystemExit] derives from [BaseException], so [except Exception] does not
    catch it; every other exception of the script derives from [Exception]. *)
Inductive Exn :=
| SystemExit (code : Z)
| Exception (msg : string).

Inductive Outcome (A : Type) :=
| Return (a : A)
| Raise (e : Exn).
Arguments Return {A} a.
Arguments Raise {A} e.

(** A call of [sess.get]: the address, the query parameters and the headers
    set on the session. *)
Record Request := mkRequest {
  req_url : string;
  req_params : list (string * string);
  req_headers : list (string * string)
}.

Inductive Event :=
| Print (line : string)
| HttpGet (req : Request)
| MakeDirs (path : string)
| WritePdf (path : string) (html : string)
| AppendLine (path : string) (line : string).

Definition Trace := list Event.

Definition M (A : Type) : Type := (Outcome A * Trace)%type.

Definition ret {A} (a : A) : M A := (Return a, []).
Definition raise {A} (e : Exn) : M A := (Raise e, []).
Definition emit (e : Event) : M unit := (Return tt, [e]).
Definition print (line : string) : M unit := emit (Print line).

Definition bind {A B} (m : M A) (k : A -> M B) : M B :=
  match m with
  | (Return a, t) => let (r, t') := k a in (r, (t ++ t')%list)
  | (Raise e, t) => (Raise e, t)
  end.

(** [try: m  except Exception as e: h e] *)
Definition try_except {A} (m : M A) (h : string -> M A) : M A :=
  match m with
  | (Raise (Exception msg), t) => let (r, t') := h msg in (r, (t ++ t')%list)
  | other => other
  end.

(** A computation that may run out of fuel. *)
Definition bindF {A B} (m : option (M A)) (k : A -> option (M B)) : option (M B) :=
  match m with
  | None => None
  | Some (Raise e, t) => Some (Raise e, t)
  | Some (Return a, t) =>
      match k a with
      | None => None
      | Some (r, t') => Some (r, (t ++ t')%list)
      end
  end.

Declare Scope py_scope.
Delimit Scope py_scope with py.
Notation "x <- m ;; k" := (bind m (fun x => k))
  (at level 61, m at next level, right associativity) : py_scope.
Notation "m ;;; k" := (bind m (fun _ => k))
  (at level 61, right associativity) : py_scope.
Notation "x <<- m ;; k" := (bindF m (fun x => k))
  (at level 61, m at next level, right associativity) : py_scope.

(** The computations [f x] for the elements of a list, in order. *)
Definition mapM {A B} (f : A -> M B) : list A -> M (list B) :=
  fix go (l : list A) : M (list B) :=
    match l with
    | [] => ret []
    | x :: rest =>
        bind (f x) (fun y => bind (go rest) (fun rest' => ret (y :: rest')))
    end.

(** Projections of a trace. *)
Fixpoint printed (t : Trace) : list string :=
  match t with
  | [] => []
  | Print l :: r => l :: printed r
  | _ :: r => printed r
  end.

Fixpoint requested (t : Trace) : list Request :=
  match t with
  | [] => []
  | HttpGet q :: r => q :: requested r
  | _ :: r => requested r
  end.

Fixpoint written_pdfs (t : Trace) : list string :=
  match t with
  | [] => []
  | WritePdf p _ :: r => p :: written_pdfs r
  | _ :: r => written_pdfs r
  end.

Fixpoint appended_lines (t : Trace) : list string :=
  match t with
  | [] => []
  | AppendLine _ l :: r => l :: appended_lines r
  | _ :: r => appended_lines r
  end.

(** ** Data model *)

Record User := mkUser { login : string }.
Record Label := mkLabel { label_name : string }.
Record Milestone := mkMilestone { milestone_title : string }.

(** An issue record of the listing. [labels] and [assignees] are empty when
    the key is absent, [body] is [None] when the key is absent or null, and
    [pull_request] is [Some] when the record has that key. *)
Record Issue := mkIssue {
  number : Z;
  title : option string;
  state : option string;
  created_at : option string;
  locked : option bool;
  user : option User;
  labels : list Label;
  assignees : list User;
  milestone : option Milestone;
  body : option string;
  comments_url : string;
  pull_request : option string
}.

Record Comment := mkComment {
  cm_user : option User;
  cm_created_at : option string;
  cm_body : option string
}.

(** [resp.json()] of the listing endpoint: a list of records or anything else. *)
Inductive IssuesJson :=
| JList (data : list Issue)
| JOther.

Record Response (J : Type) := mkResponse {
  status_code : nat;
  text : string;
  headers : list (string * string);
  content : string;
  json : J
}.
Arguments mkResponse {J}.
Arguments status_code {J}.
Arguments text {J}.
Arguments headers {J}.
Arguments content {J}.
Arguments json {J}.

(** What [sess.get] does: a response, or a transport exception. *)
Inductive Http (J : Type) :=
| Responds (r : Response J)
| Fails (msg : string).
Arguments Responds {J} r.
Arguments Fails {J} msg.

(** The headers that the script has set on a session. *)
Record Session := mkSession { sess_headers : list (string * string) }.

(** ** The parsed document of BeautifulSoup *)

Definition Attrs := list (string * string).

Inductive Node :=
| Text (s : string)
| Tag (name : string) (attrs : Attrs) (children : list Node).

(** ** The environment

    [pdfkit_from_string html path options] is [None] when the renderer
    returns, having written the file, and [Some msg] when it raises;
    [now_strftime k] is the formatted time of the [k]-th reading of the
    clock. *)

Record Environment := mkEnv {
  issues_api : Request -> Http IssuesJson;
  comments_api : Request -> Http (list Comment);
  image_api : Request -> Http unit;
  markdown2_markdown : string -> list string -> string;
  BeautifulSoup : string -> string -> list Node;
  soup_str : list Node -> string;
  pdfkit_from_string : string -> string -> list (string * string) -> option string;
  now_strftime : nat -> string;
  GITHUB_TOKEN : option string
}.

(** ** base64.b64encode (RFC 4648, with padding), bytes as 8-bit characters *)

Definition b64_alphabet : string :=
  "ABCDEFGHIJKLMNOPQRSTUVWXYZabcdefghijklmnopqrstuvwxyz0123456789+/".

Definition b64_char (n : nat) : ascii :=
  match String.get n b64_alphabet with
  | Some c => c
  | None => "="%char
  end.

Fixpoint b64encode (bytes : string) : string :=
  match bytes with
  | EmptyString => EmptyString
  | String a EmptyString =>
      let x := nat_of_ascii a in
      String (b64_char (x / 4)) (String (b64_char ((x mod 4) * 16)) "==")
  | String a (String b EmptyString) =>
      let x := nat_of_ascii a in
      let y := nat_of_ascii b in
      String (b64_char (x / 4))
        (String (b64_char ((x mod 4) * 16 + y / 16))
           (String (b64_char ((y mod 16) * 4)) "="))
  | String a (String b (String c rest)) =>
      let x := nat_of_ascii a in
      let y := nat_of_ascii b in
      let z := nat_of_ascii c in
      String (b64_char (x / 4))
        (String (b64_char ((x mod 4) * 16 + y / 16))
           (String (b64_char ((y mod 16) * 4 + z / 64))
              (String (b64_char (z mod 64)) (b64encode rest))))
  end.

(** ** str.format

    The template is scanned from left to right: a doubled brace is a literal
    brace, [{name}] is a replacement field looked up among the keyword
    arguments, a lone closing brace or an unfinished field is a [ValueError].
    The values substituted for the fields are not scanned. Conversions and
    format specifications inside a field are not modelled: the template of
    the script uses plain names only. *)

Inductive Piece :=
| Lit (c : ascii)
| Field (name : string).

Definition is_open (c : ascii) : bool := Ascii.eqb c "{"%char.
Definition is_close (c : ascii) : bool := Ascii.eqb c "}"%char.

(** The pieces of the template up to its end or to its first syntax error. *)
Fixpoint markup (field : option string) (s : string)
  : list Piece * option string :=
  match field, s with
  | None, EmptyString => ([], None)
  | None, String c r =>
      if is_open c then
        match r with
        | String c2 r2 =>
            if is_open c2 then
              let (ps, err) := markup None r2 in (Lit c :: ps, err)
            else markup (Some EmptyString) r
        | EmptyString => ([], Some "Single '{' encountered in format string")
        end
      else if is_close c then
        match r with
        | String c2 r2 =>
            if is_close c2 then
              let (ps, err) := markup None r2 in (Lit c :: ps, err)
            else ([], Some "Single '}' encountered in format string")
        | EmptyString => ([], Some "Single '}' encountered in format string")
        end
      else let (ps, err) := markup None r in (Lit c :: ps, err)
  | Some name, EmptyString => ([], Some "expected '}' before end of string")
  | Some name, String c r =>
      if is_close c then
        let (ps, err) := markup None r in (Field name :: ps, err)
      else if is_open c then ([], Some "unexpected '{' in field name")
      else markup (Some (name ++ String c EmptyString)) r
  end.

Fixpoint kwargs_get (name : string) (kwargs : list (string * string))
  : option string :=
  match kwargs with
  | [] => None
  | (k, v) :: rest => if String.eqb k name then Some v else kwargs_get name rest
  end.

Fixpoint render (ps : list Piece) (kwargs : list (string * string))
  : Outcome string :=
  match ps with
  | [] => Return EmptyString
  | Lit c :: rest =>
      match render rest kwargs with
      | Return s => Return (String c s)
      | Raise e => Raise e
      end
  | Field name :: rest =>
      match name with
      | EmptyString =>
          Raise (Exception "Replacement index 0 out of range for positional args tuple")
      | _ =>
          match kwargs_get name kwargs with
          | None => Raise (Exception ("'" ++ name ++ "'"))
          | Some v =>
              match render rest kwargs with
              | Return s => Return (v ++ s)
              | Raise e => Raise e
              end
          end
      end
  end.

(** [template.format] with keyword arguments *)
Definition py_format (template : string) (kwargs : list (string * string))
  : Outcome string :=
  let (ps, err) := markup None template in
  match render ps kwargs with
  | Raise e => Raise e
  | Return s =>
      match err with
      | None => Return s
      | Some msg => Raise (Exception msg)
      end
  end.

Definition unlines (ls : list string) : string :=
  fold_right (fun l acc => l ++ nl ++ acc) EmptyString ls.

(** ** Configuration *)

Definition OWNER : string := "UAX-Technologies".
Definition REPO : string := "DeckRC".
Definition STATE : string := "all".
Definition OUTPUT_DIR : string := "Exported_PDFs/" ++ OWNER ++ "-" ++ REPO.

Definition HTML_TEMPLATE : string := unlines [
    "<!DOCTYPE html>";
    "<html lang=" ++ dq ++ "en" ++ dq ++ ">";
    "<head>";
    "  <meta charset=" ++ dq ++ "UTF-8" ++ dq ++ ">";
    "  <title>Issue #{issue_number} - {issue_title}</title>";
    "  <style>";
    "    body {{";
    "      font-family: Arial, sans-serif;";
    "      margin: 20px;";
    "      line-height: 1.4;";
    "    }}";
    "    pre, code {{";
    "      background: #f5f5f5;";
    "      padding: 5px;";
    "      font-family: monospace;";
    "      white-space: pre-wrap;";
    "      word-wrap: break-word;";
    "    }}";
    "    h1, h2, h3 {{";
    "      margin-top: 1em;";
    "    }}";
    "    .metadata, .comments {{";
    "      margin: 1em 0;";
    "    }}";
    "    .comment {{";
    "      border-top: 1px solid #ccc;";
    "      padding-top: 1em;";
    "      margin-top: 1em;";
    "    }}";
    "    .comment:first-child {{";
    "      border-top: none;";
    "      margin-top: 0;";
    "      padding-top: 0;";
    "    }}";
    "  </style>";
    "</head>";
    "<body>";
    "  <h1>Issue #{issue_number}: {issue_title}</h1>";
    "  ";
    "  <div class=" ++ dq ++ "metadata" ++ dq ++ ">";
    "    <p><strong>State:</strong> {issue_state}</p>";
    "    <p><strong>Created at:</strong> {issue_created_at}</p>";
    "    <p><strong>Author:</strong> {issue_author}</p>";
    "    <p><strong>Locked:</strong> {locked}</p>";
    "    {milestone_html}";
    "    {labels_html}";
    "    {assignees_html}";
    "  </div>";
    "  ";
    "  <hr/>";
    "  <div class=" ++ dq ++ "issue-body" ++ dq ++ ">";
    "    {issue_body_html}";
    "  </div>";
    "";
    "  <hr/>";
    "  <div class=" ++ dq ++ "comments" ++ dq ++ ">";
    "    <h2>Comments ({comments_count})</h2>";
    "    {comments_html}";
    "  </div>";
    "</body>";
    "</html>"
  ].

Section Script.

Variable env : Environment.
Open Scope py_scope.

(** [session_with_auth]: [if token] is false for [None] and for the empty
    string. *)
Definition session_with_auth (token : option string) : Session :=
  match token with
  | Some (String c r) =>
      mkSession [("Authorization", "Bearer " ++ String c r)]
  | _ => mkSession []
  end.

Definition sess_get {J} (api : Request -> Http J) (sess : Session)
    (url : string) (params : list (string * string)) : M (Response J) :=
  let req := mkRequest url params (sess_headers sess) in
  emit (HttpGet req) ;;;
  match api req with
  | Responds r => ret r
  | Fails msg => raise (Exception msg)
  end.

(** *** fetch_issues *)

Definition issues_url (owner repo : string) : string :=
  "https://api.github.com/repos/" ++ owner ++ "/" ++ repo ++ "/issues".

Definition issues_params (state : string) (page per_page : nat)
  : list (string * string) :=
  [("state", state); ("page", str_nat page); ("per_page", str_nat per_page)].

Definition is_pull_request (issue : Issue) : bool :=
  match pull_request issue with Some _ => true | None => false end.

(** Where the generator is suspended: before the [while] body of a page, or
    inside the [for] loop over the records of a page. *)
Inductive Generator :=
| AtWhile (page : nat)
| InFor (page : nat) (rest : list Issue).

Inductive Step :=
| Yield (issue : Issue) (g : Generator)
| StopIteration.

(** The [for issue in data] loop up to its next [yield]. *)
Fixpoint next_in_page (rest : list Issue) : option (Issue * list Issue) :=
  match rest with
  | [] => None
  | issue :: rest' =>
      if is_pull_request issue then next_in_page rest'
      else Some (issue, rest')
  end.

Definition per_page : nat := 100.

(** The request of one page, with its progress line. *)
Definition get_issues_page (owner repo state : string) (token : option string)
    (page : nat) : M (Response IssuesJson) :=
  let sess := session_with_auth token in
  print ("Fetching issues page " ++ str_nat page ++ "...") ;;;
  sess_get (issues_api env) sess (issues_url owner repo)
           (issues_params state page per_page).

Definition listing_error (resp : Response IssuesJson) : string :=
  "Error: " ++ str_nat (status_code resp) ++ " " ++ text resp.

(** One [next()] on the generator. *)
Fixpoint fetch_issues_next (fuel : nat) (owner repo state : string)
    (token : option string) (g : Generator) : option (M Step) :=
  match fuel with
  | O => None
  | S fuel' =>
      match g with
      | InFor page rest =>
          match next_in_page rest with
          | Some (issue, rest') => Some (ret (Yield issue (InFor page rest')))
          | None => fetch_issues_next fuel' owner repo state token (AtWhile (page + 1))
          end
      | AtWhile page =>
          resp <<- Some (get_issues_page owner repo state token page) ;;
          if negb (status_code resp =? 200)%nat then
            Some (print (listing_error resp) ;;; raise (SystemExit 1))
          else
            match json resp with
            | JList ((_ :: _) as data) =>
                fetch_issues_next fuel' owner repo state token (InFor page data)
            | _ => Some (ret StopIteration)
            end
      end
  end.

(** [list(fetch_issues(...))]: the records yielded until the generator stops
    or raises. *)
Fixpoint drain (fuel : nat) (owner repo state : string)
    (token : option string) (g : Generator)
  : option (list Issue * Outcome unit * Trace) :=
  match fuel with
  | O => None
  | S fuel' =>
      match fetch_issues_next fuel owner repo state token g with
      | None => None
      | Some (Raise e, t) => Some ([], Raise e, t)
      | Some (Return StopIteration, t) => Some ([], Return tt, t)
      | Some (Return (Yield issue g'), t) =>
          match drain fuel' owner repo state token g' with
          | None => None
          | Some (rest, out, t') => Some (issue :: rest, out, (t ++ t')%list)
          end
      end
  end.

Definition fetch_issues (fuel : nat) (owner repo state : string)
    (token : option string) :=
  drain fuel owner repo state token (AtWhile 1).

(** *** fetch_comments_for_issue *)

Definition comments_params (page per_page : nat) : list (string * string) :=
  [("page", str_nat page); ("per_page", str_nat per_page)].

Definition comments_error (issue : Issue) (resp : Response (list Comment))
  : string :=
  "Error fetching comments for issue #" ++ str_Z (number issue) ++ ": "
  ++ str_nat (status_code resp).

Fixpoint fetch_comments_loop (fuel : nat) (sess : Session) (issue : Issue)
    (comments : list Comment) (page : nat) : option (M (list Comment)) :=
  match fuel with
  | O => None
  | S fuel' =>
      resp <<- Some (sess_get (comments_api env) sess (comments_url issue)
                              (comments_params page per_page)) ;;
      if negb (status_code resp =? 200)%nat then
        Some (print (comments_error issue resp) ;;; ret comments)
      else
        match json resp with
        | [] => Some (ret comments)
        | page_data =>
            fetch_comments_loop fuel' sess issue (comments ++ page_data)%list (page + 1)
        end
  end.

Definition fetch_comments_for_issue (fuel : nat) (issue : Issue)
    (token : option string) : option (M (list Comment)) :=
  fetch_comments_loop fuel (session_with_auth token) issue [] 1.

(** *** markdown_to_html *)

(** [md_text or EmptyString]: [None] and the empty string are both falsy. *)
Definition or_empty (md_text : option string) : string :=
  match md_text with
  | Some s => s
  | None => EmptyString
  end.

Definition markdown_to_html (md_text : option string) : string :=
  markdown2_markdown env (or_empty md_text)
    ["fenced-code-blocks"; "tables"; "strike"].

(** *** inline_images_in_html *)

(** [img.get(key, default)] *)
Fixpoint attr_get (key : string) (attrs : Attrs) (default : string) : string :=
  match attrs with
  | [] => default
  | (k, v) :: rest => if String.eqb k key then v else attr_get key rest default
  end.

(** [img[key] = value]: an existing key keeps its place. *)
Fixpoint attr_set (key value : string) (attrs : Attrs) : Attrs :=
  match attrs with
  | [] => [(key, value)]
  | (k, v) :: rest =>
      if String.eqb k key then (k, value) :: rest
      else (k, v) :: attr_set key value rest
  end.

(** [r.headers.get(key, default)]; the header names of a response compare
    without case. *)
Fixpoint headers_get (key : string) (hs : list (string * string))
    (default : string) : string :=
  match hs with
  | [] => default
  | (k, v) :: rest =>
      if String.eqb (lower k) (lower key) then v
      else headers_get key rest default
  end.

Definition starts_with_http (src : string) : bool :=
  startswith "http" (lower src).

Definition data_url (r : Response unit) : string :=
  let content_type := headers_get "Content-Type" (headers r) "image/png" in
  let b64_data := b64encode (content r) in
  "data:" ++ content_type ++ ";base64," ++ b64_data.

(** The body of the loop for one [img] tag. *)
Definition inline_img (sess : Session) (attrs : Attrs) : M Attrs :=
  let src := attr_get "src" attrs EmptyString in
  if starts_with_http src then
    try_except
      (r <- sess_get (image_api env) sess src [] ;;
       if (status_code r =? 200)%nat then
         ret (attr_set "src" (data_url r) attrs)
       else
         print ("Warning: Could not fetch image (" ++ src ++ "), status="
                ++ str_nat (status_code r)) ;;;
         ret attrs)
      (fun e =>
         print ("Warning: Exception while inlining image (" ++ src ++ "): " ++ e) ;;;
         ret attrs)
  else ret attrs.

(** [for img in soup.find_all(...)]: the tags named img in document order.
    The loop changes nothing but the attributes of the tag it visits, so it
    is a traversal of the tree. *)
Fixpoint inline_node (sess : Session) (n : Node) : M Node :=
  match n with
  | Text s => ret (Text s)
  | Tag name attrs children =>
      attrs' <- (if String.eqb name "img" then inline_img sess attrs
                 else ret attrs) ;;
      children' <- mapM (inline_node sess) children ;;
      ret (Tag name attrs' children')
  end.

Definition inline_nodes (sess : Session) (l : list Node) : M (list Node) :=
  mapM (inline_node sess) l.

Definition inline_images_in_html (html : string) (token : option string)
  : M string :=
  let sess := session_with_auth token in
  let soup := BeautifulSoup env html "html.parser" in
  soup' <- inline_nodes sess soup ;;
  ret (soup_str env soup').

(** *** log_error *)

Definition path_join (dir file : string) : string := dir ++ "/" ++ file.

(** Returns the reading of the clock for the next call. *)
Definition log_error (msg : string) (clock : nat) : M nat :=
  emit (MakeDirs OUTPUT_DIR) ;;;
  let log_path := path_join OUTPUT_DIR "error_log.txt" in
  let now_str := now_strftime env clock in
  emit (AppendLine log_path ("[" ++ now_str ++ "] " ++ msg ++ nl)) ;;;
  ret (S clock).

(** *** create_issue_pdf *)

Definition get_or {A} (o : option A) (default : A) : A :=
  match o with
  | Some a => a
  | None => default
  end.

Definition labels_html_of (labels_data : list Label) : string :=
  match labels_data with
  | [] => "<p><strong>Labels:</strong> None</p>"
  | _ => "<p><strong>Labels:</strong> "
         ++ join ", " (map label_name labels_data) ++ "</p>"
  end.

Definition assignees_html_of (assignees_data : list User) : string :=
  match assignees_data with
  | [] => "<p><strong>Assignees:</strong> None</p>"
  | _ => "<p><strong>Assignees:</strong> "
         ++ join ", " (map login assignees_data) ++ "</p>"
  end.

Definition milestone_html_of (m : option Milestone) : string :=
  match m with
  | Some ms => "<p><strong>Milestone:</strong> " ++ milestone_title ms ++ "</p>"
  | None => "<p><strong>Milestone:</strong> None</p>"
  end.

Definition author_of (u : option User) : string :=
  match u with
  | Some usr => login usr
  | None => "unknown"
  end.

Definition comment_snippet (cm : Comment) : string :=
  let cm_user_s := author_of (cm_user cm) in
  let cm_created_at_s := get_or (cm_created_at cm) EmptyString in
  let cm_body_html := markdown_to_html (cm_body cm) in
  nl ++
  "        <div class=" ++ dq ++ "comment" ++ dq ++ ">" ++ nl ++
  "          <p><strong>" ++ cm_user_s ++ "</strong> commented on "
    ++ cm_created_at_s ++ "</p>" ++ nl ++
  "          <div>" ++ cm_body_html ++ "</div>" ++ nl ++
  "        </div>" ++ nl ++
  "        ".

Definition template_kwargs (issue : Issue) (comments : list Comment)
  : list (string * string) :=
  let issue_number := number issue in
  let issue_title := get_or (title issue) ("Issue " ++ str_Z issue_number) in
  let issue_state := upper (get_or (state issue) "unknown") in
  let issue_created_at := get_or (created_at issue) EmptyString in
  let locked_str := if get_or (locked issue) false then "Yes" else "No" in
  let issue_author := author_of (user issue) in
  let labels_html := labels_html_of (labels issue) in
  let assignees_html := assignees_html_of (assignees issue) in
  let milestone_html := milestone_html_of (milestone issue) in
  let issue_body_html := markdown_to_html (body issue) in
  let comments_html_parts := map comment_snippet comments in
  let comments_count := List.length comments in
  let comments_html := join nl comments_html_parts in
  [("issue_number", str_Z issue_number);
   ("issue_title", issue_title);
   ("issue_state", issue_state);
   ("issue_created_at", issue_created_at);
   ("issue_author", issue_author);
   ("locked", locked_str);
   ("milestone_html", milestone_html);
   ("labels_html", labels_html);
   ("assignees_html", assignees_html);
   ("issue_body_html", issue_body_html);
   ("comments_count", str_nat comments_count);
   ("comments_html", comments_html)].

Definition pdf_path_of (issue : Issue) : string :=
  path_join OUTPUT_DIR ("issue_" ++ str_Z (number issue) ++ ".pdf").

(** The call of the renderer: the file is written when it returns. *)
Definition pdfkit_run (html path : string) : M unit :=
  match pdfkit_from_string env html path [("dpi", "300")] with
  | None => emit (WritePdf path html)
  | Some msg => raise (Exception msg)
  end.

Definition create_issue_pdf (issue : Issue) (comments : list Comment)
    (token : option string) (clock : nat) : M nat :=
  let issue_number := number issue in
  match py_format HTML_TEMPLATE (template_kwargs issue comments) with
  | Raise e => raise e
  | Return full_html =>
      inlined_html <- inline_images_in_html full_html token ;;
      emit (MakeDirs OUTPUT_DIR) ;;;
      let pdf_path := pdf_path_of issue in
      print ("  -> Creating PDF: Issue #" ++ str_Z issue_number ++ " -> " ++ pdf_path) ;;;
      try_except
        (pdfkit_run inlined_html pdf_path ;;; ret clock)
        (fun ex =>
           log_error ("Issue #" ++ str_Z issue_number
                      ++ " - PDF generation error: " ++ ex) clock)
  end.

(** *** main *)

(** The body of the [for] loop of [main] for one issue. *)
Definition process_issue (fuel : nat) (issue_data : Issue) (clock : nat)
  : option (M nat) :=
  let issue_num := number issue_data in
  _ <<- Some (print (nl ++ "Processing Issue #" ++ str_Z issue_num ++ "...")) ;;
  comments <<- fetch_comments_for_issue fuel issue_data (GITHUB_TOKEN env) ;;
  Some (create_issue_pdf issue_data comments (GITHUB_TOKEN env) clock).

(** The [for] loop of [main], resumed with the generator in state [g]. *)
Fixpoint main_loop (fuel : nat) (g : Generator) (total_issues clock : nat)
  : option (M nat) :=
  match fuel with
  | O => None
  | S fuel' =>
      step <<- fetch_issues_next fuel OWNER REPO STATE (GITHUB_TOKEN env) g ;;
      match step with
      | StopIteration => Some (ret total_issues)
      | Yield issue_data g' =>
          clock' <<- process_issue fuel issue_data clock ;;
          main_loop fuel' g' (total_issues + 1) clock'
      end
  end.

Definition done_message (total_issues : nat) : string :=
  nl ++ "Done! Exported " ++ str_nat total_issues ++ " issues to PDF in '"
     ++ OUTPUT_DIR ++ "'.".

Definition main (fuel : nat) : option (M unit) :=
  _ <<- Some (print ("Exporting '" ++ OWNER ++ "/" ++ REPO ++ "' issues (state="
                     ++ STATE ++ ") to PDF with inlined images...")) ;;
  total_issues <<- main_loop fuel (AtWhile 1) 0 0 ;;
  Some (print (done_message total_issues)).

End Script.

(** The exit status of the process. *)
Definition exit_status (o : Outcome unit) : Z :=
  match o with
  | Return _ => 0%Z
  | Raise (SystemExit code) => code
  | Raise (Exception _) => 1%Z
  end.

(** ** What the endpoints serve

    The statements below describe an endpoint by the pages it serves to the
    requests of the script. *)

Definition issues_request (owner repo state : string) (token : option string)
    (page : nat) : Request :=
  mkRequest (issues_url owner repo) (issues_params state page per_page)
            (sess_headers (session_with_auth token)).

Definition comments_request (issue : Issue) (token : option string)
    (page : nat) : Request :=
  mkRequest (comments_url issue) (comments_params page per_page)
            (sess_headers (session_with_auth token)).

Definition image_request (src : string) (token : option string) : Request :=
  mkRequest src [] (sess_headers (session_with_auth token)).

(** The answer has status 200 and carries [payload]. *)
Definition serves {J} (answer : Http J) (payload : J) : Prop :=
  exists r, answer = Responds r /\ status_code r = 200 /\ json r = payload.

(** The answer has a status other than 200. *)
Definition refuses {J} (answer : Http J) (r : Response J) : Prop :=
  answer = Responds r /\ status_code r <> 200.

(** Pages [page], [page + 1], ... of the listing are the non-empty lists
    [pages]. *)
Fixpoint serves_issue_pages (env : Environment) (owner repo state : string)
    (token : option string) (page : nat) (pages : list (list Issue)) : Prop :=
  match pages with
  | [] => True
  | data :: rest =>
      data <> [] /\
      serves (issues_api env (issues_request owner repo state token page))
             (JList data) /\
      serves_issue_pages env owner repo state token (S page) rest
  end.

(** The page ends the listing: status 200 with no record or with a payload
    that is not a list. *)
Definition ends_listing (answer : Http IssuesJson) : Prop :=
  serves answer (JList []) \/ serves answer JOther.

Fixpoint serves_comment_pages (env : Environment) (issue : Issue)
    (token : option string) (page : nat) (pages : list (list Comment)) : Prop :=
  match pages with
  | [] => True
  | data :: rest =>
      data <> [] /\
      serves (comments_api env (comments_request issue token page)) data /\
      serves_comment_pages env issue token (S page) rest
  end.

Definition non_pull_requests (records : list Issue) : list Issue :=
  filter (fun i => negb (is_pull_request i)) records.

(** The events of requesting [n] listing pages from [page] on. *)
Fixpoint listing_trace (owner repo state : string) (token : option string)
    (page n : nat) : Trace :=
  match n with
  | O => []
  | S n' =>
      Print ("Fetching issues page " ++ str_nat page ++ "...")
      :: HttpGet (issues_request owner repo state token page)
      :: listing_trace owner repo state token (S page) n'
  end.

Fixpoint comments_trace (issue : Issue) (token : option string)
    (page n : nat) : Trace :=
  match n with
  | O => []
  | S n' =>
      HttpGet (comments_request issue token page)
      :: comments_trace issue token (S page) n'
  end.

(** The tags named img of a document, in document order. *)
Fixpoint find_all_img (n : Node) : list Attrs :=
  match n with
  | Text _ => []
  | Tag name attrs children =>
      ((if String.eqb name "img" then [attrs] else [])
       ++ flat_map find_all_img children)%list
  end.

Definition find_all_imgs (l : list Node) : list Attrs :=
  flat_map find_all_img l.

(** The document with the attributes of its img tags erased. *)
Fixpoint without_img_attrs (n : Node) : Node :=
  match n with
  | Text s => Text s
  | Tag name attrs children =>
      Tag name (if String.eqb name "img" then [] else attrs)
          (map without_img_attrs children)
  end.

(** What the loop does to one img tag with attributes [a]: the attributes
    after it and the warnings printed. *)
Inductive inlined (env : Environment) (token : option string)
  : Attrs -> Attrs -> list string -> Prop :=
| inlined_embedded a r :
    starts_with_http (attr_get "src" a EmptyString) = true ->
    image_api env (image_request (attr_get "src" a EmptyString) token)
      = Responds r ->
    status_code r = 200 ->
    inlined env token a
      (attr_set "src"
         ("data:" ++ headers_get "Content-Type" (headers r) "image/png"
          ++ ";base64," ++ b64encode (content r)) a)
      []
| inlined_bad_status a r :
    starts_with_http (attr_get "src" a EmptyString) = true ->
    image_api env (image_request (attr_get "src" a EmptyString) token)
      = Responds r ->
    status_code r <> 200 ->
    inlined env token a a
      ["Warning: Could not fetch image (" ++ attr_get "src" a EmptyString
       ++ "), status=" ++ str_nat (status_code r)]
| inlined_exception a msg :
    starts_with_http (attr_get "src" a EmptyString) = true ->
    image_api env (image_request (attr_get "src" a EmptyString) token)
      = Fails msg ->
    inlined env token a a
      ["Warning: Exception while inlining image ("
       ++ attr_get "src" a EmptyString ++ "): " ++ msg]
| inlined_untouched a :
    starts_with_http (attr_get "src" a EmptyString) = false ->
    inlined env token a a [].

Inductive all_inlined (env : Environment) (token : option string)
  : list Attrs -> list Attrs -> list string -> Prop :=
| all_inlined_nil : all_inlined env token [] [] []
| all_inlined_cons a a' ws l l' ws' :
    inlined env token a a' ws ->
    all_inlined env token l l' ws' ->
    all_inlined env token (a :: l) (a' :: l') (ws ++ ws')%list.

(** ** Sample environments *)

Definition page_of (req : Request) : nat :=
  match kwargs_get "page" (req_params req) with
  | Some s =>
      match NilZero.uint_of_string s with
      | Some u => Nat.of_uint u
      | None => 0
      end
  | None => 0
  end.

Definition ok_response {J} (payload : J) : Http J :=
  Responds (mkResponse 200 EmptyString [] EmptyString payload).

Definition status_response {J} (status : nat) (message : string) (payload : J)
  : Http J :=
  Responds (mkResponse status message [] EmptyString payload).

Definition demo_issue (n : Z) (issue_title : string) : Issue :=
  mkIssue n (Some issue_title) (Some "open") (Some "2024-03-01T10:00:00Z")
    (Some false) (Some (mkUser "alice")) [mkLabel "bug"; mkLabel "ui"]
    [mkUser "bob"] None (Some "See log below")
    ("https://api.github.com/repos/UAX-Technologies/DeckRC/issues/"
     ++ str_Z n ++ "/comments")
    None.

Definition demo_pull (n : Z) : Issue :=
  mkIssue n (Some "A pull request") (Some "open") None None None [] [] None None
    ("https://api.github.com/repos/UAX-Technologies/DeckRC/issues/"
     ++ str_Z n ++ "/comments")
    (Some "https://api.github.com/repos/UAX-Technologies/DeckRC/pulls/7").

Definition demo_comment (who what : string) : Comment :=
  mkComment (Some (mkUser who)) (Some "2024-03-02T09:30:00Z") (Some what).

Definition demo_images (req : Request) : Http unit :=
  if String.eqb (req_url req) "https://x/y.png" then
    Responds (mkResponse 200 EmptyString [("content-type", "image/jpeg")] "Man" tt)
  else if String.eqb (req_url req) "http://x/bare.png" then
    Responds (mkResponse 200 EmptyString [] "hi" tt)
  else if String.eqb (req_url req) "https://x/missing.png" then
    Responds (mkResponse 404 "Not Found" [] EmptyString tt)
  else Fails "Connection refused".

(** A serialiser in the manner of [str(soup)]: void elements are closed in
    place. *)
Fixpoint demo_attrs (attrs : Attrs) : string :=
  match attrs with
  | [] => EmptyString
  | (k, v) :: rest => " " ++ k ++ "=" ++ dq ++ v ++ dq ++ demo_attrs rest
  end.

Definition is_void (name : string) : bool :=
  existsb (String.eqb name) ["br"; "hr"; "img"; "meta"; "input"; "link"].

Fixpoint demo_node_str (n : Node) : string :=
  match n with
  | Text s => s
  | Tag name attrs children =>
      if is_void name then "<" ++ name ++ demo_attrs attrs ++ "/>"
      else "<" ++ name ++ demo_attrs attrs ++ ">"
           ++ (fix go (l : list Node) : string :=
                 match l with
                 | [] => EmptyString
                 | c :: rest => demo_node_str c ++ go rest
                 end) children
           ++ "</" ++ name ++ ">"
  end.

Definition demo_soup_str (soup : list Node) : string :=
  fold_right (fun n acc => demo_node_str n ++ acc) EmptyString soup.

Definition gallery_html : string :=
  "<p><img src=" ++ dq ++ "https://x/y.png" ++ dq ++ "><img src=" ++ dq
  ++ "https://x/missing.png" ++ dq ++ "><img alt=" ++ dq ++ "logo" ++ dq
  ++ " src=" ++ dq ++ "logo.png" ++ dq ++ "><img src=" ++ dq
  ++ "HTTPS://x/down.png" ++ dq ++ "><img src=" ++ dq ++ "http://x/bare.png"
  ++ dq ++ "></p>".

Definition gallery_soup : list Node :=
  [Tag "p" []
     [Tag "img" [("src", "https://x/y.png")] [];
      Tag "img" [("src", "https://x/missing.png")] [];
      Tag "img" [("alt", "logo"); ("src", "logo.png")] [];
      Tag "img" [("src", "HTTPS://x/down.png")] [];
      Tag "img" [("src", "http://x/bare.png")] []]].

Definition local_html : string :=
  "<p>hi <img alt=" ++ dq ++ "logo" ++ dq ++ " src=" ++ dq ++ "logo.png" ++ dq
  ++ "/></p>".

(** The parse of a few fragments; any other text is kept as one text node. *)
Definition demo_parse (html features : string) : list Node :=
  if String.eqb html "<br>" then [Tag "br" [] []]
  else if String.eqb html "<p>hi</p>" then [Tag "p" [] [Text "hi"]]
  else if String.eqb html local_html then
    [Tag "p" [] [Text "hi "; Tag "img" [("alt", "logo"); ("src", "logo.png")] []]]
  else if String.eqb html gallery_html then gallery_soup
  else [Text html].

Definition demo_markdown (md_text : string) (extras : list string) : string :=
  match md_text with
  | EmptyString => EmptyString
  | _ => "<p>" ++ md_text ++ "</p>" ++ nl
  end.

Definition demo_env (issues : Request -> Http IssuesJson)
    (comments : Request -> Http (list Comment))
    (pdf_error : string -> option string) : Environment :=
  mkEnv issues comments demo_images demo_markdown demo_parse demo_soup_str
        (fun html path options => pdf_error path)
        (fun clock => "2024-03-05 12:00:0" ++ str_nat clock)
        None.

(** Three issues and a pull request on one page; the renderer fails on the
    second issue; the comments of the third issue are refused. *)
Definition three_issues : Environment :=
  demo_env
    (fun req =>
       match page_of req with
       | 1 => ok_response (JList [demo_issue 1 "Crash on startup"; demo_pull 7;
                                   demo_issue 2 "Second"; demo_issue 3 "Third"])
       | _ => ok_response (JList [])
       end)
    (fun req =>
       if String.eqb (req_url req) (comments_url (demo_issue 1 EmptyString)) then
         match page_of req with
         | 1 => ok_response [demo_comment "bob" "Same here";
                             demo_comment "carol" "Fixed in main"]
         | _ => ok_response []
         end
       else if String.eqb (req_url req) (comments_url (demo_issue 3 EmptyString)) then
         status_response 403 "rate limit" []
       else ok_response [])
    (fun path =>
       if String.eqb path (pdf_path_of (demo_issue 2 EmptyString))
       then Some "wkhtmltopdf reported an error" else None).

(** A listing that serves the given pages and empty pages after them. *)
Definition listing_of (pages : list (list Issue)) (req : Request)
  : Http IssuesJson :=
  match page_of req with
  | O => Fails "Invalid page"
  | S k => ok_response (JList (nth k pages []))
  end.

Definition no_comments (req : Request) : Http (list Comment) := ok_response [].

Definition long_pages : list (list Issue) :=
  [repeat (demo_issue 5 "Fifth") 100; repeat (demo_issue 6 "Sixth") 100;
   repeat (demo_issue 8 "Eighth") 37].

(** Pages of 100, 100 and 37 issues. *)
Definition long_listing : Environment :=
  demo_env (listing_of long_pages) no_comments (fun _ => None).

(** A repository without issues. *)
Definition empty_listing : Environment :=
  demo_env (listing_of []) no_comments (fun _ => None).

(** The answer stops the paging of comments: a status other than 200, or no
    comment. *)
Definition stops_paging (answer : Http (list Comment)) : Prop :=
  exists r, answer = Responds r /\ (status_code r <> 200 \/ json r = []).

(** The answer keeps the paging of comments going. *)
Definition keeps_paging (answer : Http (list Comment)) : Prop :=
  exists r, answer = Responds r /\ status_code r = 200 /\ json r <> [].

(** The events [t], then the computation [r]. *)
Definition after {A} (t : Trace) (r : option (M A)) : option (M A) :=
  match r with
  | Some (o, t') => Some (o, (t ++ t')%list)
  | None => None
  end.

(** One issue whose comments come in pages of two and one, after which the
    endpoint answers 502. *)
Definition partial_comments : Environment :=
  demo_env
    (listing_of [[demo_issue 1 "Crash on startup"; demo_issue 2 "Second"]])
    (fun req =>
       match page_of req with
       | 1 => ok_response [demo_comment "bob" "Same here";
                           demo_comment "carol" "Me too"]
       | 2 => ok_response [demo_comment "dave" "Any news?"]
       | _ => status_response 502 "Bad Gateway" []
       end)
    (fun _ => None).

(** Every page of comments holds one comment. *)
Definition endless_comments : Environment :=
  demo_env
    (listing_of [[demo_issue 1 "Crash on startup"]])
    (fun req => ok_response [demo_comment "bob" "Same here"])
    (fun _ => None).

(** The names of the replacement fields of a template. *)
Fixpoint fields (ps : list Piece) : list string :=
  match ps with
  | [] => []
  | Lit _ :: rest => fields rest
  | Field name :: rest => name :: fields rest
  end.

(** A trace of console output and requests only. *)
Definition quiet (t : Trace) : Prop :=
  Forall (fun e => match e with
                   | Print _ | HttpGet _ => True
                   | _ => False
                   end) t.

(** The document of an issue before and after the inlining of its images,
    and what the renderer does with it. *)
Definition full_html_of (env : Environment) (issue : Issue)
    (comments : list Comment) : string :=
  match py_format HTML_TEMPLATE (template_kwargs env issue comments) with
  | Return s => s
  | Raise _ => EmptyString
  end.

Definition inlined_html_of (env : Environment) (issue : Issue)
    (comments : list Comment) (token : option string) : string :=
  match inline_images_in_html env (full_html_of env issue comments) token with
  | (Return s, _) => s
  | (Raise _, _) => EmptyString
  end.

Definition render_error (env : Environment) (issue : Issue)
    (comments : list Comment) (token : option string) : option string :=
  pdfkit_from_string env (inlined_html_of env issue comments token)
                     (pdf_path_of issue) [("dpi", "300")].

(** An issue whose title and body hold braces. *)
Definition brace_issue : Issue :=
  mkIssue 9 (Some "Crash in {config}") (Some "open") None None None [] [] None
    (Some "Unbalanced } and { in the log")
    "https://api.github.com/repos/UAX-Technologies/DeckRC/issues/9/comments"
    None.

Definition brace_listing : Environment :=
  demo_env (listing_of [[brace_issue]]) no_comments (fun _ => None).

(** The message and the line that [create_issue_pdf] hands to the error log
    when the renderer raises [ex]. *)
Definition issue_error (issue : Issue) (ex : string) : string :=
  "Issue #" ++ str_Z (number issue) ++ " - PDF generation error: " ++ ex.

Definition logged (line : string) (issue : Issue) : Prop :=
  exists now_str ex, line = "[" ++ now_str ++ "] " ++ issue_error issue ex ++ nl.

(** What becomes of an issue in [main] when its comments are fetched with the
    given fuel. *)
Definition comments_returned (env : Environment) (fuel : nat) (issue : Issue)
  : bool :=
  match fetch_comments_for_issue env fuel issue (GITHUB_TOKEN env) with
  | Some (Return _, _) => true
  | _ => false
  end.

Definition comments_of (env : Environment) (fuel : nat) (issue : Issue)
  : list Comment :=
  match fetch_comments_for_issue env fuel issue (GITHUB_TOKEN env) with
  | Some (Return comments, _) => comments
  | _ => []
  end.

Definition renders (env : Environment) (fuel : nat) (issue : Issue) : bool :=
  match render_error env issue (comments_of env fuel issue) (GITHUB_TOKEN env) with
  | None => true
  | Some _ => false
  end.

Definition step_of (out : Outcome unit) : Outcome Step :=
  match out with
  | Return _ => Return StopIteration
  | Raise e => Raise e
  end.

(** Why a run ends with an exception: a listing page with a status other
    than 200, or a transport exception of a listing or comment request. *)
Inductive fatal (env : Environment) (t : Trace) : Outcome unit -> Prop :=
| fatal_listing_status page r :
    refuses (issues_api env (issues_request OWNER REPO STATE (GITHUB_TOKEN env) page)) r ->
    In (HttpGet (issues_request OWNER REPO STATE (GITHUB_TOKEN env) page)) t ->
    fatal env t (Raise (SystemExit 1))
| fatal_listing_exception page msg :
    issues_api env (issues_request OWNER REPO STATE (GITHUB_TOKEN env) page)
    = Fails msg ->
    In (HttpGet (issues_request OWNER REPO STATE (GITHUB_TOKEN env) page)) t ->
    fatal env t (Raise (Exception msg))
| fatal_comments_exception issue page msg :
    comments_api env (comments_request issue (GITHUB_TOKEN env) page) = Fails msg ->
    In (HttpGet (comments_request issue (GITHUB_TOKEN env) page)) t ->
    fatal env t (Raise (Exception msg)).

(** Does the string hold a brace? *)
Fixpoint has_brace (s : string) : bool :=
  match s with
  | EmptyString => false
  | String c r => is_open c || is_close c || has_brace r
  end.

(** Two issues on the first page; the second page of the listing answers
    500. *)
Definition failing_listing : Environment :=
  demo_env
    (fun req =>
       match page_of req with
       | 1 => ok_response (JList [demo_issue 1 "Crash on startup";
                                   demo_issue 2 "Second"])
       | _ => status_response 500 "Server Error" (JList [])
       end)
    no_comments
    (fun _ => None).

(** A listing whose every answer has status 200: the records on page 1,
    nothing on any other page. *)
Definition first_page_only (data : list Issue) (req : Request)
  : Http IssuesJson :=
  if String.eqb (get_or (kwargs_get "page" (req_params req)) EmptyString) "1"
  then ok_response (JList data)
  else ok_response (JList []).

(** The listing is served, the connection of the comment requests is
    reset. *)
Definition broken_comments : Environment :=
  demo_env
    (first_page_only [demo_issue 1 "Crash on startup"; demo_issue 2 "Second"])
    (fun req => Fails "Connection reset by peer")
    (fun _ => None).

(** What the inliner does to one node of the document. *)
Definition node_spec (env : Environment) (token : option string) (n : Node)
  : Prop :=
  exists n' t,
    inline_node env (session_with_auth token) n = (Return n', t) /\
    all_inlined env token (find_all_img n) (find_all_img n') (printed t) /\
    without_img_attrs n' = without_img_attrs n /\ quiet t.

(** Discharges the description of a concrete endpoint. *)
Ltac served :=
  repeat match goal with
    | |- _ /\ _ => split
    | |- True => exact I
    | |- serves_issue_pages _ _ _ _ _ _ _ => hnf
    | |- serves_comment_pages _ _ _ _ _ => hnf
    | |- serves _ _ => eexists; split; [reflexivity | split; reflexivity]
    | |- refuses _ _ => split; [reflexivity | vm_compute; discriminate]
    | |- ends_listing _ => left
    | |- _ <> _ => first [discriminate | vm_compute; discriminate]
    end.


(** ** Further samples and notions used by the properties of the run *)

(** The first page of the listing is served; the connection drops on every
    later page. *)
Definition dropped_listing : Environment :=
  demo_env
    (fun req =>
       match page_of req with
       | 1 => ok_response (JList [demo_issue 1 "Crash on startup";
                                   demo_issue 2 "Second"])
       | _ => Fails "Connection aborted"
       end)
    no_comments
    (fun _ => None).

(** The line that [main] prints before it handles an issue. *)
Definition processing_line (issue : Issue) : string :=
  nl ++ "Processing Issue #" ++ str_Z (number issue) ++ "...".

(** The line that [create_issue_pdf] prints before it calls the renderer. *)
Definition creating_line (issue : Issue) : string :=
  "  -> Creating PDF: Issue #" ++ str_Z (number issue) ++ " -> "
  ++ pdf_path_of issue.

(** The sources of the img tags that the inliner fetches. *)
Definition web_sources (imgs : list Attrs) : list string :=
  filter starts_with_http (map (fun a => attr_get "src" a EmptyString) imgs).


(** Every img tag with a source starting with http is answered with
    status 200. *)
Definition all_fetched (env : Environment) (token : option string)
    (imgs : list Attrs) : Prop :=
  Forall (fun a =>
            starts_with_http (attr_get "src" a EmptyString) = true ->
            exists r,
              image_api env (image_request (attr_get "src" a EmptyString) token)
              = Responds r /\ status_code r = 200) imgs.

(** A document whose images are all served or local. *)
Definition fetched_soup : list Node :=
  [Tag "p" []
     [Tag "img" [("src", "https://x/y.png")] [];
      Text "and";
      Tag "img" [("alt", "logo"); ("src", "logo.png")] [];
      Tag "img" [("src", "http://x/bare.png")] []]].


(** ** Parts of a document *)

(** [part] occurs in [s]. *)
Definition contains (s part : string) : Prop :=
  exists pre post, s = pre ++ part ++ post.

Definition piece_eqb (p q : Piece) : bool :=
  match p, q with
  | Lit c, Lit d => Ascii.eqb c d
  | Field n, Field m => String.eqb n m
  | _, _ => false
  end.

Fixpoint is_prefix (seg ps : list Piece) : bool :=
  match seg, ps with
  | [], _ => true
  | p :: seg', q :: ps' => piece_eqb p q && is_prefix seg' ps'
  | _ :: _, [] => false
  end.

(** The pieces [seg] occur in [ps], side by side. *)
Fixpoint occurs (seg ps : list Piece) : bool :=
  is_prefix seg ps
  || match ps with
     | [] => false
     | _ :: ps' => occurs seg ps'
     end.

(** The lines of the template that show the metadata of an issue, and what
    they become for an issue that has none of the optional keys. *)
Definition metadata_lines : string := unlines [
    "  <div class=" ++ dq ++ "metadata" ++ dq ++ ">";
    "    <p><strong>State:</strong> {issue_state}</p>";
    "    <p><strong>Created at:</strong> {issue_created_at}</p>";
    "    <p><strong>Author:</strong> {issue_author}</p>";
    "    <p><strong>Locked:</strong> {locked}</p>";
    "    {milestone_html}";
    "    {labels_html}";
    "    {assignees_html}";
    "  </div>"
  ].

Definition metadata_defaults : string := unlines [
    "  <div class=" ++ dq ++ "metadata" ++ dq ++ ">";
    "    <p><strong>State:</strong> UNKNOWN</p>";
    "    <p><strong>Created at:</strong> </p>";
    "    <p><strong>Author:</strong> unknown</p>";
    "    <p><strong>Locked:</strong> No</p>";
    "    <p><strong>Milestone:</strong> None</p>";
    "    <p><strong>Labels:</strong> None</p>";
    "    <p><strong>Assignees:</strong> None</p>";
    "  </div>"
  ].

(** The lines of the template that show the comments, and what they become
    for the comments [comments]. *)
Definition comments_lines : string := unlines [
    "  <div class=" ++ dq ++ "comments" ++ dq ++ ">";
    "    <h2>Comments ({comments_count})</h2>";
    "    {comments_html}";
    "  </div>"
  ].

Definition comments_block (env : Environment) (comments : list Comment)
  : string :=
  "  <div class=" ++ dq ++ "comments" ++ dq ++ ">" ++ nl
  ++ "    <h2>Comments (" ++ str_nat (List.length comments) ++ ")</h2>" ++ nl
  ++ "    " ++ join nl (map (comment_snippet env) comments) ++ nl
  ++ "  </div>" ++ nl.

(** An issue record with the mandatory keys only. *)
Definition bare_issue (n : Z) : Issue :=
  mkIssue n None None None None None [] [] None None
    "https://api.github.com/repos/UAX-Technologies/DeckRC/issues/4/comments"
    None.

(** ** Base64 as RFC 4648 defines it

    Three bytes make a group of 24 bits, which is read as four numbers of
    6 bits; each number is the index of a character of the alphabet. A last
    group of one byte is filled up with zero bits to 12 bits and gives two
    characters, a last group of two bytes is filled up to 18 bits and gives
    three characters; the output is then padded with = to four
    characters. *)

Definition byte_value (a : ascii) : Z := Z.of_nat (nat_of_ascii a).

(** [c] is the character of index [k] of the base64 alphabet. *)
Definition base64_digit (k : Z) (c : ascii) : Prop :=
  (0 <= k < 64)%Z /\
  String.get (Z.to_nat k)
    "ABCDEFGHIJKLMNOPQRSTUVWXYZabcdefghijklmnopqrstuvwxyz0123456789+/"
  = Some c.

Inductive rfc4648 : string -> string -> Prop :=
| rfc4648_end : rfc4648 EmptyString EmptyString
| rfc4648_24 a b c rest c1 c2 c3 c4 out :
    let n := (byte_value a * 65536 + byte_value b * 256 + byte_value c)%Z in
    base64_digit (n / 262144) c1 ->
    base64_digit (n / 4096 mod 64) c2 ->
    base64_digit (n / 64 mod 64) c3 ->
    base64_digit (n mod 64) c4 ->
    rfc4648 rest out ->
    rfc4648 (String a (String b (String c rest)))
            (String c1 (String c2 (String c3 (String c4 out))))
| rfc4648_8 a c1 c2 :
    let n := (byte_value a * 16)%Z in
    base64_digit (n / 64) c1 ->
    base64_digit (n mod 64) c2 ->
    rfc4648 (String a EmptyString) (String c1 (String c2 "=="))
| rfc4648_16 a b c1 c2 c3 :
    let n := ((byte_value a * 256 + byte_value b) * 4)%Z in
    base64_digit (n / 4096) c1 ->
    base64_digit (n / 64 mod 64) c2 ->
    base64_digit (n mod 64) c3 ->
    rfc4648 (String a (String b EmptyString))
            (String c1 (String c2 (String c3 "="))).

(** Euclidean division by a constant, on numbers of [nat] seen in [Z]. *)
Ltac euclid :=
  rewrite ?Nat2Z.inj_add, ?Nat2Z.inj_mul, ?Nat2Z.inj_div, ?Nat2Z.inj_mod;
  cbn [Z.of_nat Pos.of_succ_nat Pos.succ];
  Z.to_euclidean_division_equations; lia.

(** The header names of [hs] that are not Content-Type, in any letter
    case. *)
Definition no_content_type (hs : list (string * string)) : Prop :=
  Forall (fun kv => lower (fst kv) <> "content-type") hs.

(** ** What the inliner leaves alone *)

(** An img tag that the inliner fetches. *)
Definition is_web_img (name : string) (attrs : Attrs) : bool :=
  (String.eqb name "img"
   && starts_with_http (attr_get "src" attrs EmptyString))%bool.

(** [n'] is [n], up to the attributes of the img tags whose source starts
    with http. *)
Inductive keeps_local_refs : Node -> Node -> Prop :=
| keeps_text s : keeps_local_refs (Text s) (Text s)
| keeps_tag name attrs attrs' children children' :
    (is_web_img name attrs = false -> attrs' = attrs) ->
    Forall2 keeps_local_refs children children' ->
    keeps_local_refs (Tag name attrs children) (Tag name attrs' children').

(** The first page of comments is served, the connection is reset on the
    second. *)
Definition late_reset : Environment :=
  demo_env
    (first_page_only [demo_issue 1 "Crash on startup"])
    (fun req =>
       match page_of req with
       | 1 => ok_response [demo_comment "bob" "Same here"]
       | _ => Fails "Connection reset by peer"
       end)
    (fun _ => None).

(** * Properties *)

Open Scope list_scope.

(** ** The effect monad *)

Lemma bindF_some {A B} (m : M A) (k : A -> option (M B)) :
  bindF (Some m) k =
  match m with
  | (Raise e, t) => Some (Raise e, t)
  | (Return a, t) =>
      match k a with
      | None => None
      | Some (r, t') => Some (r, (t ++ t')%list)
      end
  end.
Proof. destruct m as [[a | e] t]; reflexivity. Qed.

Lemma written_pdfs_app t1 t2 :
  written_pdfs (t1 ++ t2) = (written_pdfs t1 ++ written_pdfs t2)%list.
Proof.
  induction t1 as [| e t1 IH]; [reflexivity |].
  destruct e; cbn; rewrite IH; reflexivity.
Qed.

Lemma appended_lines_app t1 t2 :
  appended_lines (t1 ++ t2) = (appended_lines t1 ++ appended_lines t2)%list.
Proof.
  induction t1 as [| e t1 IH]; [reflexivity |].
  destruct e; cbn; rewrite IH; reflexivity.
Qed.

Lemma printed_app t1 t2 :
  printed (t1 ++ t2) = (printed t1 ++ printed t2)%list.
Proof.
  induction t1 as [| e t1 IH]; [reflexivity |].
  destruct e; cbn; rewrite IH; reflexivity.
Qed.

Lemma requested_app t1 t2 :
  requested (t1 ++ t2) = (requested t1 ++ requested t2)%list.
Proof.
  induction t1 as [| e t1 IH]; [reflexivity |].
  destruct e; cbn; rewrite IH; reflexivity.
Qed.

(** ** The listing generator *)

Section Listing.

Variable env : Environment.
Variables owner repo state : string.
Variable token : option string.

Local Abbreviation next fuel g :=
  (fetch_issues_next env fuel owner repo state token g).
Local Abbreviation run fuel g := (drain env fuel owner repo state token g).
Local Abbreviation request page :=
  (issues_request owner repo state token page).
Local Abbreviation fetching page :=
  (Print ("Fetching issues page " ++ str_nat page ++ "...")%string).

Lemma get_issues_page_responds page r :
  issues_api env (request page) = Responds r ->
  get_issues_page env owner repo state token page
  = (Return r, [fetching page; HttpGet (request page)]).
Proof.
  intros H. unfold get_issues_page, sess_get.
  change (mkRequest (issues_url owner repo) (issues_params state page per_page)
            (sess_headers (session_with_auth token))) with (request page).
  rewrite H. reflexivity.
Qed.

Lemma get_issues_page_fails page msg :
  issues_api env (request page) = Fails msg ->
  get_issues_page env owner repo state token page
  = (Raise (Exception msg), [fetching page; HttpGet (request page)]).
Proof.
  intros H. unfold get_issues_page, sess_get.
  change (mkRequest (issues_url owner repo) (issues_params state page per_page)
            (sess_headers (session_with_auth token))) with (request page).
  rewrite H. reflexivity.
Qed.

Lemma next_S fuel g :
  next (S fuel) g =
  match g with
  | InFor page rest =>
      match next_in_page rest with
      | Some (issue, rest') => Some (ret (Yield issue (InFor page rest')))
      | None => next fuel (AtWhile (page + 1))
      end
  | AtWhile page =>
      bindF (Some (get_issues_page env owner repo state token page))
        (fun resp =>
           if negb (status_code resp =? 200)%nat then
             Some (bind (print (listing_error resp))
                        (fun _ => raise (SystemExit 1)))
           else
             match json resp with
             | JList ((_ :: _) as data) => next fuel (InFor page data)
             | _ => Some (ret StopIteration)
             end)
  end.
Proof. destruct g; reflexivity. Qed.

Lemma next_mono fuel : forall fuel' g r,
  next fuel g = Some r -> fuel <= fuel' -> next fuel' g = Some r.
Proof.
  induction fuel as [| fuel IH]; intros fuel' g r H Hle; [discriminate |].
  destruct fuel' as [| fuel']; [lia |].
  rewrite next_S in *.
  destruct g as [page | page rest].
  - rewrite bindF_some in *.
    destruct (get_issues_page env owner repo state token page) as [[resp | e] t];
      [| exact H].
    destruct (negb (status_code resp =? 200)%nat); [exact H |].
    destruct (json resp) as [[| i data] |]; try exact H.
    destruct (next fuel (InFor page (i :: data))) as [[r1 t1] |] eqn:E;
      [| discriminate].
    rewrite (IH fuel' _ _ E) by lia. exact H.
  - destruct (next_in_page rest) as [[i rest'] |]; [exact H |].
    apply IH; [exact H | lia].
Qed.

Lemma run_S fuel g :
  run (S fuel) g =
  match next (S fuel) g with
  | None => None
  | Some (Raise e, t) => Some ([], Raise e, t)
  | Some (Return StopIteration, t) => Some ([], Return tt, t)
  | Some (Return (Yield issue g'), t) =>
      match run fuel g' with
      | None => None
      | Some (rest, out, t') => Some (issue :: rest, out, (t ++ t')%list)
      end
  end.
Proof. reflexivity. Qed.

Lemma run_mono fuel : forall fuel' g r,
  run fuel g = Some r -> fuel <= fuel' -> run fuel' g = Some r.
Proof.
  induction fuel as [| fuel IH]; intros fuel' g r H Hle; [discriminate |].
  destruct fuel' as [| fuel']; [lia |].
  rewrite run_S in *.
  destruct (next (S fuel) g) as [[[[i g' |] | e] t] |] eqn:E; try discriminate;
    rewrite (next_mono _ (S fuel') _ _ E) by lia; try exact H.
  destruct (run fuel g') as [[[rest out] t'] |] eqn:E'; [| discriminate].
  rewrite (IH fuel' _ _ E') by lia. exact H.
Qed.

(** How one step of the generator extends a run. *)
Lemma run_yield f1 f2 g g' i t ys out t' :
  next f1 g = Some (Return (Yield i g'), t) ->
  run f2 g' = Some (ys, out, t') ->
  run (S (Nat.max f1 f2)) g = Some (i :: ys, out, (t ++ t')%list).
Proof.
  intros Hn Hr. rewrite run_S.
  rewrite (next_mono _ (S (Nat.max f1 f2)) _ _ Hn) by lia.
  rewrite (run_mono _ (Nat.max f1 f2) _ _ Hr) by lia. reflexivity.
Qed.

Lemma run_stop f1 g t :
  next f1 g = Some (Return StopIteration, t) ->
  run (S f1) g = Some ([], Return tt, t).
Proof.
  intros Hn. rewrite run_S.
  rewrite (next_mono _ (S f1) _ _ Hn) by lia. reflexivity.
Qed.

Lemma run_raise f1 g e t :
  next f1 g = Some (Raise e, t) ->
  run (S f1) g = Some ([], Raise e, t).
Proof.
  intros Hn. rewrite run_S.
  rewrite (next_mono _ (S f1) _ _ Hn) by lia. reflexivity.
Qed.

(** A state whose next step is the step of [g] after the events [t0]. *)
Lemma run_delegate g0 g t0 :
  (forall f out t, next f g = Some (out, t) ->
                   next (S f) g0 = Some (out, (t0 ++ t)%list)) ->
  forall f ys out t, run f g = Some (ys, out, t) ->
                     run (S f) g0 = Some (ys, out, (t0 ++ t)%list).
Proof.
  intros Hd f ys out t H.
  destruct f as [| f]; [discriminate |].
  rewrite run_S in H.
  destruct (next (S f) g) as [[[[i g' |] | e] t1] |] eqn:E; try discriminate.
  - destruct (run f g') as [[[rest o] t'] |] eqn:E'; [| discriminate].
    injection H as <- <- <-.
    rewrite run_S, (Hd _ _ _ E).
    rewrite (run_mono _ (S f) _ _ E') by lia.
    rewrite app_assoc. reflexivity.
  - injection H as <- <- <-. rewrite run_S, (Hd _ _ _ E). reflexivity.
  - injection H as <- <- <-. rewrite run_S, (Hd _ _ _ E). reflexivity.
Qed.

Lemma next_page_served page i data :
  serves (issues_api env (request page)) (JList (i :: data)) ->
  forall f out t, next f (InFor page (i :: data)) = Some (out, t) ->
    next (S f) (AtWhile page)
    = Some (out, ([fetching page; HttpGet (request page)] ++ t)%list).
Proof.
  intros (r & Hr & Hs & Hj) f out t H.
  rewrite next_S, bindF_some, (get_issues_page_responds _ _ Hr).
  rewrite Hs, Hj. cbn [Nat.eqb negb].
  change (200 =? 200)%nat with true. cbn [negb].
  rewrite H. reflexivity.
Qed.

Lemma next_page_ends page :
  ends_listing (issues_api env (request page)) ->
  next 1 (AtWhile page)
  = Some (Return StopIteration, [fetching page; HttpGet (request page)]).
Proof.
  intros [(r & Hr & Hs & Hj) | (r & Hr & Hs & Hj)];
    rewrite next_S, bindF_some, (get_issues_page_responds _ _ Hr);
    rewrite Hs, Hj; reflexivity.
Qed.

Lemma next_page_refused page r :
  refuses (issues_api env (request page)) r ->
  next 1 (AtWhile page)
  = Some (Raise (SystemExit 1),
          [fetching page; HttpGet (request page); Print (listing_error r)]).
Proof.
  intros [Hr Hs].
  rewrite next_S, bindF_some, (get_issues_page_responds _ _ Hr).
  apply Nat.eqb_neq in Hs. rewrite Hs. reflexivity.
Qed.

Lemma next_page_fails page msg :
  issues_api env (request page) = Fails msg ->
  next 1 (AtWhile page)
  = Some (Raise (Exception msg), [fetching page; HttpGet (request page)]).
Proof.
  intros Hr.
  rewrite next_S, bindF_some, (get_issues_page_fails _ _ Hr). reflexivity.
Qed.

(** The rest of a page, then the pages after it. *)
Lemma run_rest_of_page page ys out t : forall rest,
  (exists f, run f (AtWhile (page + 1)) = Some (ys, out, t)) ->
  exists f, run f (InFor page rest)
            = Some ((non_pull_requests rest ++ ys)%list, out, t).
Proof.
  induction rest as [| i rest IH]; intros [f Hf].
  - exists (S f). apply (run_delegate (InFor page []) (AtWhile (page + 1)) []);
      [| exact Hf].
    intros f' o t' H. rewrite next_S. exact H.
  - destruct (IH (ex_intro _ f Hf)) as [f' Hf'].
    unfold non_pull_requests. cbn [filter].
    destruct (is_pull_request i) eqn:Epr; cbn [negb].
    + exists (S f').
      apply (run_delegate (InFor page (i :: rest)) (InFor page rest) []);
        [| exact Hf'].
      intros [| f''] o t' H; [discriminate |].
      rewrite next_S in *. cbn [next_in_page]. rewrite Epr.
      destruct (next_in_page rest) as [[j rest'] |]; [exact H |].
      apply (next_mono f''); [exact H | lia].
    + exists (S (Nat.max 1 f')).
      apply (run_yield 1 f' _ (InFor page rest) i [] _ _ t); [| exact Hf'].
      rewrite next_S. cbn [next_in_page]. rewrite Epr. reflexivity.
Qed.

(** The pages served, then whatever the listing does after them. *)
Lemma run_pages ys out t : forall pages page,
  serves_issue_pages env owner repo state token page pages ->
  (exists f, run f (AtWhile (page + List.length pages)) = Some (ys, out, t)) ->
  exists f, run f (AtWhile page)
            = Some ((non_pull_requests (concat pages) ++ ys)%list, out,
                    (listing_trace owner repo state token page (List.length pages)
                     ++ t)%list).
Proof.
  induction pages as [| data pages IH]; intros page Hp [f Hf].
  - exists f. cbn in *. rewrite Nat.add_0_r in Hf. exact Hf.
  - destruct Hp as (Hne & Hs & Hp).
    cbn [List.length] in Hf. rewrite Nat.add_succ_r in Hf.
    destruct (IH (S page) Hp (ex_intro _ f Hf)) as [f1 Hf1].
    replace (S page) with (page + 1) in Hf1 at 1 by lia.
    destruct (run_rest_of_page page _ _ _ data (ex_intro _ f1 Hf1)) as [f2 Hf2].
    destruct data as [| i data]; [congruence |].
    exists (S f2). cbn [concat List.length listing_trace].
    unfold non_pull_requests in *. rewrite filter_app, <- app_assoc.
    apply (run_delegate (AtWhile page) (InFor page (i :: data))
             [fetching page; HttpGet (request page)]); [| exact Hf2].
    apply next_page_served. exact Hs.
Qed.

End Listing.

Lemma non_pull_requests_are_issues records :
  Forall (fun i => pull_request i = None) (non_pull_requests records).
Proof.
  apply Forall_forall. intros i Hi.
  apply filter_In in Hi. destruct Hi as [_ Hi].
  unfold is_pull_request in Hi. destruct (pull_request i); [discriminate | reflexivity].
Qed.

Lemma filter_partition_length {A} (f : A -> bool) (l : list A) :
  List.length (filter (fun x => negb (f x)) l) + List.length (filter f l)
  = List.length l.
Proof.
  induction l as [| x l IH]; [reflexivity |].
  cbn [filter]. destruct (f x); cbn [negb List.length]; lia.
Qed.

Lemma requested_listing_trace owner repo state token n : forall page,
  requested (listing_trace owner repo state token page n)
  = map (issues_request owner repo state token) (seq page n).
Proof.
  induction n as [| n IH]; intros page; [reflexivity |].
  cbn [listing_trace requested seq map]. rewrite IH. reflexivity.
Qed.

Lemma listing_trace_app owner repo state token n : forall page m,
  listing_trace owner repo state token page (n + m)
  = listing_trace owner repo state token page n
    ++ listing_trace owner repo state token (page + n) m.
Proof.
  induction n as [| n IH]; intros page m.
  - cbn. rewrite Nat.add_0_r. reflexivity.
  - cbn [Nat.add listing_trace app]. rewrite IH.
    replace (S page + n) with (page + S n) by lia. reflexivity.
Qed.

(** The listing served page by page and then ended: the whole run of the
    generator. *)
Lemma fetch_issues_pages env owner repo state token pages :
  serves_issue_pages env owner repo state token 1 pages ->
  ends_listing (issues_api env (issues_request owner repo state token
                                  (1 + List.length pages))) ->
  exists fuel0, forall fuel, fuel0 <= fuel ->
    fetch_issues env fuel owner repo state token
    = Some (non_pull_requests (concat pages), Return tt,
            listing_trace owner repo state token 1 (S (List.length pages))).
Proof.
  intros Hp He.
  destruct (run_pages env owner repo state token [] (Return tt)
              (listing_trace owner repo state token (1 + List.length pages) 1)
              pages 1 Hp) as [f Hf].
  - exists 2. apply run_stop. apply next_page_ends. exact He.
  - exists f. intros fuel Hle. unfold fetch_issues.
    rewrite (run_mono env owner repo state token f fuel _ _ Hf Hle).
    rewrite app_nil_r.
    replace (S (List.length pages)) with (List.length pages + 1) by lia.
    rewrite listing_trace_app. reflexivity.
Qed.

(** C2: when the listing holds the pages [pages] and then ends, the fetcher
    yields the records of all pages that carry no pull-request marker, in
    the order of the pages; their number is the number of records without
    marker, and no yielded record carries the marker. *)
Theorem fetch_issues_yields_every_issue env owner repo state token pages :
  serves_issue_pages env owner repo state token 1 pages ->
  ends_listing (issues_api env (issues_request owner repo state token
                                  (1 + List.length pages))) ->
  let yielded := non_pull_requests (concat pages) in
  (exists fuel0, forall fuel, fuel0 <= fuel ->
     exists t, fetch_issues env fuel owner repo state token
               = Some (yielded, Return tt, t)) /\
  List.length yielded + List.length (filter is_pull_request (concat pages))
  = List.length (concat pages) /\
  Forall (fun i => pull_request i = None) yielded.
Proof.
  intros Hp He yielded. split; [| split].
  - destruct (fetch_issues_pages _ _ _ _ _ _ Hp He) as [f Hf].
    exists f. intros fuel Hle. eexists. apply Hf. exact Hle.
  - apply filter_partition_length.
  - apply non_pull_requests_are_issues.
Qed.

Lemma non_pull_requests_all records :
  Forall (fun i => pull_request i = None) records ->
  non_pull_requests records = records.
Proof.
  induction 1 as [| i l Hi _ IH]; [reflexivity |].
  unfold non_pull_requests in *. cbn [filter].
  unfold is_pull_request at 1. rewrite Hi. cbn [negb]. rewrite IH. reflexivity.
Qed.

Lemma no_pull_request_check records :
  forallb (fun i => negb (is_pull_request i)) records = true ->
  Forall (fun i => pull_request i = None) records.
Proof.
  intros H. apply Forall_forall. intros i Hi.
  apply (proj1 (forallb_forall _ _) H) in Hi.
  unfold is_pull_request in Hi. destruct (pull_request i); [discriminate | reflexivity].
Qed.

Lemma length_concat_sum {A} (ls : list (list A)) :
  List.length (concat ls) = list_sum (map (@List.length A) ls).
Proof.
  induction ls as [| l ls IH]; [reflexivity |].
  cbn [concat map list_sum]. rewrite length_app, IH. reflexivity.
Qed.

(** C3, as the code has it: the fetcher asks for pages 1, 2, ... in this
    order, each with the page size 100, and stops at the first page that has
    status 200 and no record or a payload that is not a list, whatever the
    sizes of the pages before it: with [pages] served before that page, the
    requests are those of pages 1 to [length pages + 1] and no other, and
    when no record is a pull request the number of records yielded is the sum
    of the page sizes. *)
Theorem fetch_issues_pagination env owner repo state token pages :
  serves_issue_pages env owner repo state token 1 pages ->
  ends_listing (issues_api env (issues_request owner repo state token
                                  (1 + List.length pages))) ->
  exists fuel0, forall fuel, fuel0 <= fuel ->
    exists yielded t,
      fetch_issues env fuel owner repo state token
      = Some (yielded, Return tt, t) /\
      requested t = map (issues_request owner repo state token)
                        (seq 1 (S (List.length pages))) /\
      Forall (fun q => kwargs_get "per_page" (req_params q) = Some "100"%string)
             (requested t) /\
      (Forall (fun i => pull_request i = None) (concat pages) ->
       List.length yielded = list_sum (map (@List.length Issue) pages)).
Proof.
  intros Hp He.
  destruct (fetch_issues_pages _ _ _ _ _ _ Hp He) as [f Hf].
  exists f. intros fuel Hle. do 2 eexists. split; [apply Hf; exact Hle |].
  rewrite requested_listing_trace. split; [reflexivity |]. split.
  - apply Forall_forall. intros q Hq. apply in_map_iff in Hq.
    destruct Hq as (p & <- & _). reflexivity.
  - intros Hall. rewrite (non_pull_requests_all _ Hall).
    apply length_concat_sum.
Qed.

Example three_issues_listing :
  option_map (fun r => map number (fst (fst r)))
             (fetch_issues three_issues 5 OWNER REPO STATE None)
  = Some [1%Z; 2%Z; 3%Z].
Proof. vm_compute. reflexivity. Qed.

Lemma fetch_issues_yields_every_issue_witness :
  (exists fuel0, forall fuel, fuel0 <= fuel ->
     exists t, fetch_issues three_issues fuel OWNER REPO STATE None
               = Some ([demo_issue 1 "Crash on startup"; demo_issue 2 "Second";
                        demo_issue 3 "Third"], Return tt, t)) /\
  3 + 1 = 4 /\
  Forall (fun i => pull_request i = None)
         [demo_issue 1 "Crash on startup"; demo_issue 2 "Second";
          demo_issue 3 "Third"].
Proof.
  apply (fetch_issues_yields_every_issue three_issues OWNER REPO STATE None
           [[demo_issue 1 "Crash on startup"; demo_pull 7;
             demo_issue 2 "Second"; demo_issue 3 "Third"]]); served.
Defined.

(** Pages of 100, 100 and 37 records: the page of 37 does not end the
    paging; page 4 is requested as well, and its empty answer ends it. *)
Lemma short_page_does_not_end_paging :
  map (@List.length Issue) long_pages = [100; 100; 37] /\
  option_map (fun r => (List.length (fst (fst r)), snd (fst r),
                        map page_of (requested (snd r))))
             (fetch_issues long_listing 300 OWNER REPO STATE None)
  = Some (237, Return tt, [1; 2; 3; 4]).
Proof. split; vm_compute; reflexivity. Qed.

Example empty_listing_run :
  option_map (fun r => (fst r, map page_of (requested (snd r))))
             (fetch_issues empty_listing 10 OWNER REPO STATE None)
  = Some ([], Return tt, [1]).
Proof. vm_compute. reflexivity. Qed.

Lemma fetch_issues_pagination_witness :
  (exists fuel yielded t,
     fetch_issues long_listing fuel OWNER REPO STATE None
     = Some (yielded, Return tt, t) /\
     map page_of (requested t) = [1; 2; 3; 4] /\
     List.length yielded = 237) /\
  (exists fuel t,
     fetch_issues empty_listing fuel OWNER REPO STATE None
     = Some ([], Return tt, t) /\
     map page_of (requested t) = [1]).
Proof.
  split.
  - destruct (fetch_issues_pagination long_listing OWNER REPO STATE None
                long_pages ltac:(served) ltac:(served)) as [f Hf].
    destruct (Hf f (Nat.le_refl f)) as (ys & t & Hrun & Hreq & _ & Hlen).
    exists f, ys, t. split; [exact Hrun |]. split.
    + rewrite Hreq. vm_compute. reflexivity.
    + rewrite Hlen; [vm_compute; reflexivity |].
      apply no_pull_request_check. vm_compute. reflexivity.
  - destruct (fetch_issues_pagination empty_listing OWNER REPO STATE None []
                ltac:(served) ltac:(served)) as [f Hf].
    destruct (Hf f (Nat.le_refl f)) as (ys & t & Hrun & Hreq & _ & Hlen).
    exists f, t. split.
    + rewrite Hrun. f_equal. f_equal. f_equal.
      destruct ys; [reflexivity |]. specialize (Hlen (Forall_nil _)). discriminate.
    + rewrite Hreq. reflexivity.
Defined.

(** ** The comment fetcher *)

Section Comments.

Variable env : Environment.
Variable issue : Issue.
Variable token : option string.

Local Abbreviation sess := (session_with_auth token).
Local Abbreviation loop fuel acc page :=
  (fetch_comments_loop env fuel sess issue acc page).
Local Abbreviation request page := (comments_request issue token page).
Local Abbreviation get page :=
  (sess_get (comments_api env) sess (comments_url issue)
            (comments_params page per_page)).

Lemma get_comments_responds page r :
  comments_api env (request page) = Responds r ->
  get page = (Return r, [HttpGet (request page)]).
Proof.
  intros H. unfold sess_get.
  change (mkRequest (comments_url issue) (comments_params page per_page)
            (sess_headers sess)) with (request page).
  rewrite H. reflexivity.
Qed.

Lemma get_comments_fails page msg :
  comments_api env (request page) = Fails msg ->
  get page = (Raise (Exception msg), [HttpGet (request page)]).
Proof.
  intros H. unfold sess_get.
  change (mkRequest (comments_url issue) (comments_params page per_page)
            (sess_headers sess)) with (request page).
  rewrite H. reflexivity.
Qed.

Lemma loop_S fuel acc page :
  loop (S fuel) acc page =
  bindF (Some (get page))
    (fun resp =>
       if negb (status_code resp =? 200)%nat then
         Some (bind (print (comments_error issue resp)) (fun _ => ret acc))
       else
         match json resp with
         | [] => Some (ret acc)
         | page_data => loop fuel (acc ++ page_data) (page + 1)
         end).
Proof. reflexivity. Qed.

Lemma loop_mono fuel : forall fuel' acc page r,
  loop fuel acc page = Some r -> fuel <= fuel' -> loop fuel' acc page = Some r.
Proof.
  induction fuel as [| fuel IH]; intros fuel' acc page r H Hle; [discriminate |].
  destruct fuel' as [| fuel']; [lia |].
  rewrite loop_S, bindF_some in *.
  destruct (get page) as [[resp | e] t]; [| exact H].
  destruct (negb (status_code resp =? 200)%nat); [exact H |].
  destruct (json resp) as [| c data]; [exact H |].
  destruct (loop fuel (acc ++ c :: data) (page + 1)) as [[r1 t1] |] eqn:E;
    [| discriminate].
  rewrite (IH fuel' _ _ _ E) by lia. exact H.
Qed.

Lemma loop_refused acc page r :
  refuses (comments_api env (request page)) r ->
  loop 1 acc page
  = Some (Return acc, [HttpGet (request page); Print (comments_error issue r)]).
Proof.
  intros [Hr Hs].
  rewrite loop_S, bindF_some, (get_comments_responds _ _ Hr).
  apply Nat.eqb_neq in Hs. rewrite Hs. reflexivity.
Qed.

Lemma loop_empty acc page :
  serves (comments_api env (request page)) [] ->
  loop 1 acc page = Some (Return acc, [HttpGet (request page)]).
Proof.
  intros (r & Hr & Hs & Hj).
  rewrite loop_S, bindF_some, (get_comments_responds _ _ Hr), Hs, Hj.
  reflexivity.
Qed.

Lemma loop_fails acc page msg :
  comments_api env (request page) = Fails msg ->
  loop 1 acc page = Some (Raise (Exception msg), [HttpGet (request page)]).
Proof.
  intros Hr. rewrite loop_S, bindF_some, (get_comments_fails _ _ Hr).
  reflexivity.
Qed.

Lemma loop_served fuel acc page data :
  data <> [] ->
  serves (comments_api env (request page)) data ->
  loop (S fuel) acc page
  = after [HttpGet (request page)] (loop fuel (acc ++ data) (page + 1)).
Proof.
  intros Hne (r & Hr & Hs & Hj).
  rewrite loop_S, bindF_some, (get_comments_responds _ _ Hr), Hs, Hj.
  destruct data as [| c data]; [congruence |]. reflexivity.
Qed.

Lemma loop_pages out t : forall pages acc page,
  serves_comment_pages env issue token page pages ->
  (exists f, loop f (acc ++ concat pages) (page + List.length pages)
             = Some (out, t)) ->
  exists f, loop f acc page
            = Some (out, comments_trace issue token page (List.length pages) ++ t).
Proof.
  induction pages as [| data pages IH]; intros acc page Hp [f Hf].
  - exists f. cbn in *. rewrite app_nil_r, Nat.add_0_r in Hf. exact Hf.
  - destruct Hp as (Hne & Hs & Hp).
    cbn [concat List.length] in Hf.
    rewrite app_assoc, Nat.add_succ_r in Hf.
    destruct (IH (acc ++ data) (S page) Hp (ex_intro _ f Hf)) as [f1 Hf1].
    exists (S f1). rewrite (loop_served _ _ _ _ Hne Hs).
    replace (page + 1) with (S page) by lia. rewrite Hf1. reflexivity.
Qed.

(** Paging ends at the first page that stops it, or earlier by an
    exception. *)
Lemma loop_terminates k : forall acc page,
  stops_paging (comments_api env (request (page + k))) ->
  exists fuel r, loop fuel acc page = Some r.
Proof.
  induction k as [| k IH]; intros acc page Hstop.
  - rewrite Nat.add_0_r in Hstop. destruct Hstop as (r & Hr & [Hs | Hj]).
    + exists 1. eexists. apply loop_refused. split; eassumption.
    + exists 1. rewrite loop_S, bindF_some, (get_comments_responds _ _ Hr), Hj.
      destruct (negb (status_code r =? 200)%nat); eexists; reflexivity.
  - destruct (comments_api env (request page)) as [r | msg] eqn:Hr.
    + destruct (Nat.eq_dec (status_code r) 200) as [Hs | Hs].
      * destruct (json r) as [| c data] eqn:Hj.
        -- exists 1. eexists. apply loop_empty. exists r. auto.
        -- replace (page + S k) with ((page + 1) + k) in Hstop by lia.
           destruct (IH (acc ++ c :: data) (page + 1) Hstop) as (f & [o t] & Hf).
           exists (S f). eexists.
           rewrite (loop_served f acc page (c :: data)); [| discriminate |].
           ++ rewrite Hf. reflexivity.
           ++ exists r. auto.
      * exists 1. eexists. apply loop_refused. split; eassumption.
    + exists 1. eexists. apply loop_fails. exact Hr.
Qed.

Lemma loop_diverges fuel : forall acc page,
  (forall p, page <= p -> keeps_paging (comments_api env (request p))) ->
  loop fuel acc page = None.
Proof.
  induction fuel as [| fuel IH]; intros acc page Hkeep; [reflexivity |].
  destruct (Hkeep page (Nat.le_refl _)) as (r & Hr & Hs & Hj).
  rewrite (loop_served fuel acc page (json r) Hj); [| exists r; auto].
  rewrite IH; [reflexivity |].
  intros p Hp. apply Hkeep. lia.
Qed.

End Comments.

(** C10: the paging loop of the comment fetcher returns (with a list of
    comments or by an exception of the request) as soon as some page has a
    status other than 200 or an empty payload; when every page has status
    200 and a payload that is not empty, the loop never returns: no amount of
    fuel gives a result. *)
Theorem fetch_comments_termination env issue token :
  ((exists page, 1 <= page /\
      stops_paging (comments_api env (comments_request issue token page))) ->
   exists fuel r, fetch_comments_for_issue env fuel issue token = Some r) /\
  ((forall page, 1 <= page ->
      keeps_paging (comments_api env (comments_request issue token page))) ->
   forall fuel, fetch_comments_for_issue env fuel issue token = None).
Proof.
  split.
  - intros (page & Hle & Hstop).
    apply (loop_terminates env issue token (page - 1) [] 1).
    replace (1 + (page - 1)) with page by lia. exact Hstop.
  - intros Hkeep fuel. apply loop_diverges. exact Hkeep.
Qed.

Example endless_comments_run :
  fetch_comments_for_issue endless_comments 500 (demo_issue 1 "Crash on startup") None
  = None.
Proof. vm_compute. reflexivity. Qed.

Example partial_comments_run :
  fetch_comments_for_issue partial_comments 4 (demo_issue 1 "Crash on startup") None
  = Some (Return [demo_comment "bob" "Same here"; demo_comment "carol" "Me too";
                  demo_comment "dave" "Any news?"],
          [HttpGet (comments_request (demo_issue 1 "Crash on startup") None 1);
           HttpGet (comments_request (demo_issue 1 "Crash on startup") None 2);
           HttpGet (comments_request (demo_issue 1 "Crash on startup") None 3);
           Print "Error fetching comments for issue #1: 502"%string]).
Proof. vm_compute. reflexivity. Qed.

Lemma fetch_comments_termination_witness :
  (exists fuel r,
     fetch_comments_for_issue partial_comments fuel
       (demo_issue 1 "Crash on startup") None = Some r) /\
  (forall fuel,
     fetch_comments_for_issue endless_comments fuel
       (demo_issue 1 "Crash on startup") None = None).
Proof.
  split.
  - apply (proj1 (fetch_comments_termination partial_comments
                    (demo_issue 1 "Crash on startup") None)).
    exists 3. split; [lia |].
    eexists. split; [reflexivity |]. left. vm_compute. discriminate.
  - apply (proj2 (fetch_comments_termination endless_comments
                    (demo_issue 1 "Crash on startup") None)).
    intros page _. eexists. split; [reflexivity |].
    split; [reflexivity | discriminate].
Defined.

(** ** Template substitution *)

Lemma render_returns kwargs : forall ps,
  forallb (fun n => negb (String.eqb n EmptyString)
                    && existsb (String.eqb n) (map fst kwargs)) (fields ps) = true ->
  exists s, render ps kwargs = Return s.
Proof.
  assert (Hget : forall n, existsb (String.eqb n) (map fst kwargs) = true ->
                           exists v, kwargs_get n kwargs = Some v).
  { induction kwargs as [| [k v] kw IH]; intros n H; [discriminate |].
    cbn [map fst existsb kwargs_get] in *.
    rewrite String.eqb_sym in H.
    destruct (String.eqb k n); [eauto | apply IH; exact H]. }
  induction ps as [| [c | n] ps IH]; intros H.
  - exists EmptyString. reflexivity.
  - destruct (IH H) as [s Hs]. cbn [render]. rewrite Hs. eauto.
  - cbn [fields forallb] in H. apply andb_true_iff in H. destruct H as [H1 H2].
    apply andb_true_iff in H1. destruct H1 as [Hne Hin].
    destruct (IH H2) as [s Hs]. destruct (Hget n Hin) as [v Hv].
    cbn [render]. destruct n as [| a n']; [discriminate |].
    rewrite Hv, Hs. eauto.
Qed.

Lemma append_assoc (a b c : string) :
  ((a ++ b) ++ c = a ++ (b ++ c))%string.
Proof. induction a as [| x a IH]; cbn; [reflexivity | rewrite IH; reflexivity]. Qed.

(** The value of a field is part of the result as it is. *)
Lemma render_inserts kwargs n v : forall ps s,
  render ps kwargs = Return s ->
  In n (fields ps) ->
  kwargs_get n kwargs = Some v ->
  exists pre post, s = (pre ++ v ++ post)%string.
Proof.
  induction ps as [| [c | m] ps IH]; intros s Hr Hin Hv.
  - destruct Hin.
  - cbn [render] in Hr.
    destruct (render ps kwargs) as [s' | e] eqn:E; [| discriminate].
    injection Hr as <-.
    destruct (IH s' eq_refl Hin Hv) as (pre & post & ->).
    exists (String c pre), post. reflexivity.
  - cbn [render] in Hr. destruct m as [| a m']; [discriminate |].
    destruct (kwargs_get (String a m') kwargs) as [w |] eqn:Ew; [| discriminate].
    destruct (render ps kwargs) as [s' | e] eqn:E; [| discriminate].
    injection Hr as <-.
    destruct (string_dec (String a m') n) as [Heq | Hne].
    + subst n. rewrite Ew in Hv. injection Hv as ->.
      exists EmptyString, s'. reflexivity.
    + destruct Hin as [Heq | Hin]; [congruence |].
      destruct (IH s' eq_refl Hin Hv) as (pre & post & ->).
      exists (w ++ pre)%string, post. rewrite append_assoc. reflexivity.
Qed.

Lemma template_well_formed : snd (markup None HTML_TEMPLATE) = None.
Proof. vm_compute. reflexivity. Qed.

Lemma template_fields :
  fields (fst (markup None HTML_TEMPLATE))
  = ["issue_number"; "issue_title"; "issue_number"; "issue_title";
     "issue_state"; "issue_created_at"; "issue_author"; "locked";
     "milestone_html"; "labels_html"; "assignees_html"; "issue_body_html";
     "comments_count"; "comments_html"]%string.
Proof. vm_compute. reflexivity. Qed.

Lemma template_kwargs_names env issue comments :
  map fst (template_kwargs env issue comments)
  = ["issue_number"; "issue_title"; "issue_state"; "issue_created_at";
     "issue_author"; "locked"; "milestone_html"; "labels_html";
     "assignees_html"; "issue_body_html"; "comments_count";
     "comments_html"]%string.
Proof. reflexivity. Qed.

Lemma py_format_template env issue comments :
  py_format HTML_TEMPLATE (template_kwargs env issue comments)
  = Return (full_html_of env issue comments) /\
  render (fst (markup None HTML_TEMPLATE)) (template_kwargs env issue comments)
  = Return (full_html_of env issue comments).
Proof.
  unfold full_html_of, py_format.
  pose proof template_well_formed as Hw.
  destruct (markup None HTML_TEMPLATE) as [ps err] eqn:E. cbn [snd fst] in *.
  subst err.
  destruct (render_returns (template_kwargs env issue comments) ps) as [s Hs].
  - rewrite template_kwargs_names.
    replace ps with (fst (markup None HTML_TEMPLATE)) by (rewrite E; reflexivity).
    rewrite template_fields. reflexivity.
  - rewrite Hs. split; reflexivity.
Qed.

(** ** The image inliner *)

Lemma Node_induction (P : Node -> Prop) :
  (forall s, P (Text s)) ->
  (forall name attrs children, Forall P children -> P (Tag name attrs children)) ->
  forall n, P n.
Proof.
  intros Htext Htag. fix IH 1. intros [s | name attrs children].
  - apply Htext.
  - apply Htag. induction children as [| c children IHc].
    + constructor.
    + constructor; [apply IH | exact IHc].
Qed.

Lemma quiet_app t1 t2 : quiet t1 -> quiet t2 -> quiet (t1 ++ t2).
Proof. intros H1 H2. apply Forall_app. split; assumption. Qed.

Lemma quiet_writes_nothing t :
  quiet t -> written_pdfs t = [] /\ appended_lines t = [].
Proof.
  induction 1 as [| e t He _ [IH1 IH2]]; [split; reflexivity |].
  destruct e; try contradiction; cbn; auto.
Qed.

Lemma all_inlined_app env token l1 l1' w1 l2 l2' w2 :
  all_inlined env token l1 l1' w1 ->
  all_inlined env token l2 l2' w2 ->
  all_inlined env token (l1 ++ l2) (l1' ++ l2') (w1 ++ w2).
Proof.
  induction 1 as [| a a' ws l l' ws' Ha Hl IH]; intros H2; [exact H2 |].
  cbn [app]. rewrite <- app_assoc. constructor; [exact Ha | apply IH; exact H2].
Qed.

Lemma find_all_imgs_cons n l :
  find_all_imgs (n :: l) = find_all_img n ++ find_all_imgs l.
Proof. reflexivity. Qed.

Lemma inline_nodes_cons env sess n l :
  inline_nodes env sess (n :: l)
  = bind (inline_node env sess n)
      (fun n' => bind (inline_nodes env sess l) (fun l' => ret (n' :: l'))).
Proof. reflexivity. Qed.

Section Inliner.

Variable env : Environment.
Variable token : option string.

Local Abbreviation sess := (session_with_auth token).

(** One img tag: the loop body returns, and does what [inlined] says. *)
Lemma inline_img_spec a :
  exists a' t,
    inline_img env sess a = (Return a', t) /\
    inlined env token a a' (printed t) /\ quiet t.
Proof.
  unfold inline_img.
  destruct (starts_with_http (attr_get "src" a EmptyString)) eqn:Hweb.
  - unfold sess_get.
    change (mkRequest (attr_get "src" a EmptyString) [] (sess_headers sess))
      with (image_request (attr_get "src" a EmptyString) token).
    destruct (image_api env (image_request (attr_get "src" a EmptyString) token))
      as [r | msg] eqn:Hr.
    + destruct (Nat.eq_dec (status_code r) 200) as [Hs | Hs].
      * do 2 eexists. split.
        -- cbn. rewrite Hs. cbn. reflexivity.
        -- split; [| repeat constructor].
           cbn [printed app]. apply (inlined_embedded env token a r Hweb Hr Hs).
      * do 2 eexists. split.
        -- cbn. apply Nat.eqb_neq in Hs. rewrite Hs. cbn. reflexivity.
        -- split; [| repeat constructor].
           cbn [printed app]. apply (inlined_bad_status env token a r Hweb Hr Hs).
    + do 2 eexists. split; [cbn; reflexivity |].
      split; [| repeat constructor].
      cbn [printed app]. apply (inlined_exception env token a msg Hweb Hr).
  - exists a, []. split; [reflexivity |].
    split; [apply inlined_untouched; exact Hweb | constructor].
Qed.

Lemma inline_node_Tag name attrs children :
  inline_node env sess (Tag name attrs children)
  = bind (if String.eqb name "img" then inline_img env sess attrs else ret attrs)
      (fun attrs' =>
         bind (inline_nodes env sess children)
              (fun children' => ret (Tag name attrs' children'))).
Proof. reflexivity. Qed.

Lemma find_all_img_Tag name attrs children :
  find_all_img (Tag name attrs children)
  = (if String.eqb name "img" then [attrs] else []) ++ find_all_imgs children.
Proof. reflexivity. Qed.

Lemma inline_nodes_spec l :
  Forall (node_spec env token) l ->
  exists l' t,
    inline_nodes env sess l = (Return l', t) /\
    all_inlined env token (find_all_imgs l) (find_all_imgs l') (printed t) /\
    map without_img_attrs l' = map without_img_attrs l /\ quiet t.
Proof.
  induction 1 as [| n l (n' & t & Hn & Ha & Hw & Hq) _
                      (l' & t' & Hl & Ha' & Hw' & Hq')].
  - exists [], []. repeat split; constructor.
  - exists (n' :: l'), (t ++ t' ++ []).
    rewrite inline_nodes_cons. rewrite Hn. cbn [bind]. rewrite Hl. cbn [bind ret].
    split; [reflexivity |]. rewrite app_nil_r. split; [| split].
    + rewrite !find_all_imgs_cons. rewrite printed_app.
      apply all_inlined_app; assumption.
    + cbn [map]. rewrite Hw, Hw'. reflexivity.
    + apply quiet_app; assumption.
Qed.

Lemma inline_node_spec : forall n, node_spec env token n.
Proof.
  apply Node_induction.
  - intros s. exists (Text s), []. repeat split; constructor.
  - intros name attrs children Hch.
    destruct (inline_nodes_spec children Hch) as (l' & t' & Hl & Ha' & Hw' & Hq').
    unfold node_spec. rewrite inline_node_Tag.
    destruct (String.eqb name "img") eqn:Himg.
    + destruct (inline_img_spec attrs) as (a' & t & Hi & Ha & Hq).
      exists (Tag name a' l'), (t ++ t' ++ []).
      rewrite Hi. cbn [bind]. rewrite Hl. cbn [bind ret].
      split; [reflexivity |]. rewrite app_nil_r.
      rewrite !find_all_img_Tag, Himg. split; [| split].
      * rewrite printed_app. cbn [app].
        constructor; assumption.
      * cbn [without_img_attrs]. rewrite Himg.
        change (map without_img_attrs l') with (map without_img_attrs l').
        f_equal. exact Hw'.
      * apply quiet_app; assumption.
    + exists (Tag name attrs l'), t'.
      cbn [ret bind]. rewrite Hl. cbn [bind ret].
      split; [rewrite app_nil_r; reflexivity |].
      rewrite !find_all_img_Tag, Himg. split; [exact Ha' | split; [| exact Hq']].
      cbn [without_img_attrs]. rewrite Himg. f_equal. exact Hw'.
Qed.

Lemma inline_images_in_html_spec html :
  exists soup' t,
    inline_images_in_html env html token = (Return (soup_str env soup'), t) /\
    all_inlined env token
      (find_all_imgs (BeautifulSoup env html "html.parser"))
      (find_all_imgs soup') (printed t) /\
    map without_img_attrs soup'
    = map without_img_attrs (BeautifulSoup env html "html.parser") /\
    quiet t.
Proof.
  destruct (inline_nodes_spec (BeautifulSoup env html "html.parser"))
    as (l' & t & Hl & Ha & Hw & Hq).
  - apply Forall_forall. intros n _. apply inline_node_spec.
  - exists l', t. unfold inline_images_in_html. rewrite Hl.
    cbn [bind ret]. rewrite app_nil_r. auto.
Qed.

(** A document whose img tags all have a source that does not start with
    http is left as it is, without any request or warning. *)
Lemma inline_nodes_local : forall l,
  Forall (fun a => starts_with_http (attr_get "src" a EmptyString) = false)
         (find_all_imgs l) ->
  inline_nodes env sess l = (Return l, []).
Proof.
  assert (Hnode : forall n,
    Forall (fun a => starts_with_http (attr_get "src" a EmptyString) = false)
           (find_all_img n) ->
    inline_node env sess n = (Return n, [])).
  { apply (Node_induction (fun n =>
      Forall (fun a => starts_with_http (attr_get "src" a EmptyString) = false)
             (find_all_img n) ->
      inline_node env sess n = (Return n, []))).
    - reflexivity.
    - intros name attrs children IH H.
      rewrite find_all_img_Tag in H. apply Forall_app in H. destruct H as [Ha Hc].
      assert (Hch : inline_nodes env sess children = (Return children, [])).
      { clear Ha. induction IH as [| c cs Hc0 _ IHcs]; [reflexivity |].
        rewrite find_all_imgs_cons in Hc. apply Forall_app in Hc. destruct Hc as [H1 H2].
        rewrite inline_nodes_cons. rewrite (Hc0 H1). cbn [bind].
        rewrite (IHcs H2). reflexivity. }
      rewrite inline_node_Tag, Hch.
      destruct (String.eqb name "img").
      + inversion Ha as [| ? ? Hsrc _]; subst.
        unfold inline_img. rewrite Hsrc. reflexivity.
      + reflexivity. }
  induction l as [| n l IH]; intros H; [reflexivity |].
  rewrite find_all_imgs_cons in H. apply Forall_app in H. destruct H as [H1 H2].
  rewrite inline_nodes_cons. rewrite (Hnode n H1). cbn [bind]. rewrite (IH H2).
  reflexivity.
Qed.

End Inliner.

Lemma attr_get_set_same key value default : forall a,
  attr_get key (attr_set key value a) default = value.
Proof.
  induction a as [| [k v] a IH]; cbn [attr_set attr_get].
  - rewrite String.eqb_refl. reflexivity.
  - destruct (String.eqb k key) eqn:E; cbn [attr_get]; rewrite E;
      [reflexivity | exact IH].
Qed.

Lemma attr_get_set_other key value other default : forall a,
  other <> key ->
  attr_get other (attr_set key value a) default = attr_get other a default.
Proof.
  intros a Hne. induction a as [| [k v] a IH]; cbn [attr_set attr_get].
  - destruct (String.eqb key other) eqn:E; [| reflexivity].
    apply String.eqb_eq in E. congruence.
  - destruct (String.eqb k key) eqn:E; cbn [attr_get]; [| rewrite IH; reflexivity].
    apply String.eqb_eq in E. subst k.
    destruct (String.eqb key other) eqn:E'; [| reflexivity].
    apply String.eqb_eq in E'. congruence.
Qed.

(** ** Base64 and the headers of a response *)

Lemma b64_char_digit k :
  k < 64 -> base64_digit (Z.of_nat k) (b64_char k).
Proof.
  intros Hk. split; [lia |]. rewrite Nat2Z.id.
  assert (Hall : forallb
            (fun i =>
               match String.get i
                       "ABCDEFGHIJKLMNOPQRSTUVWXYZabcdefghijklmnopqrstuvwxyz0123456789+/"
               with
               | Some c => Ascii.eqb c (b64_char i)
               | None => false
               end) (seq 0 64) = true) by (vm_compute; reflexivity).
  rewrite forallb_forall in Hall.
  specialize (Hall k ltac:(apply in_seq; lia)).
  destruct (String.get k _) as [c |]; [| discriminate].
  apply Ascii.eqb_eq in Hall. subst c. reflexivity.
Qed.

Lemma sextets_24 (x y z : nat) :
  x < 256 -> y < 256 -> z < 256 ->
  let n := (Z.of_nat x * 65536 + Z.of_nat y * 256 + Z.of_nat z)%Z in
  (n / 262144)%Z = Z.of_nat (x / 4) /\
  (n / 4096 mod 64)%Z = Z.of_nat ((x mod 4) * 16 + y / 16) /\
  (n / 64 mod 64)%Z = Z.of_nat ((y mod 16) * 4 + z / 64) /\
  (n mod 64)%Z = Z.of_nat (z mod 64).
Proof.
  intros Hx Hy Hz n. subst n. split; [euclid |]. split; [| split; [| euclid]].
  - replace ((Z.of_nat x * 65536 + Z.of_nat y * 256 + Z.of_nat z) / 4096)%Z
      with (Z.of_nat x * 16 + Z.of_nat y / 16)%Z by euclid.
    euclid.
  - replace ((Z.of_nat x * 65536 + Z.of_nat y * 256 + Z.of_nat z) / 64)%Z
      with (Z.of_nat x * 1024 + Z.of_nat y * 4 + Z.of_nat z / 64)%Z by euclid.
    euclid.
Qed.

Lemma sextets_8 (x : nat) :
  x < 256 ->
  let n := (Z.of_nat x * 16)%Z in
  (n / 64)%Z = Z.of_nat (x / 4) /\ (n mod 64)%Z = Z.of_nat ((x mod 4) * 16).
Proof. intros Hx n. subst n. split; euclid. Qed.

Lemma sextets_16 (x y : nat) :
  x < 256 -> y < 256 ->
  let n := ((Z.of_nat x * 256 + Z.of_nat y) * 4)%Z in
  (n / 4096)%Z = Z.of_nat (x / 4) /\
  (n / 64 mod 64)%Z = Z.of_nat ((x mod 4) * 16 + y / 16) /\
  (n mod 64)%Z = Z.of_nat ((y mod 16) * 4).
Proof.
  intros Hx Hy n. subst n. split; [euclid | split; [| euclid]].
  replace (((Z.of_nat x * 256 + Z.of_nat y) * 4) / 64)%Z
    with (Z.of_nat x * 16 + Z.of_nat y / 16)%Z by euclid.
  euclid.
Qed.

(** [b64encode] computes the encoding of RFC 4648. *)
Lemma b64encode_rfc4648 : forall bytes, rfc4648 bytes (b64encode bytes).
Proof.
  fix IH 1. intros [| a [| b [| c rest]]].
  - constructor.
  - pose proof (nat_ascii_bounded a) as Ha.
    destruct (sextets_8 (nat_of_ascii a) Ha) as [H1 H2].
    cbn [b64encode]. apply rfc4648_8; unfold byte_value.
    + rewrite H1. apply b64_char_digit.
      apply Nat.Div0.div_lt_upper_bound. lia.
    + rewrite H2. apply b64_char_digit.
      pose proof (Nat.mod_upper_bound (nat_of_ascii a) 4). lia.
  - pose proof (nat_ascii_bounded a) as Ha.
    pose proof (nat_ascii_bounded b) as Hb.
    destruct (sextets_16 (nat_of_ascii a) (nat_of_ascii b) Ha Hb)
      as (H1 & H2 & H3).
    pose proof (Nat.mod_upper_bound (nat_of_ascii a) 4).
    pose proof (Nat.mod_upper_bound (nat_of_ascii b) 16).
    assert (nat_of_ascii b / 16 < 16)
      by (apply Nat.Div0.div_lt_upper_bound; lia).
    cbn [b64encode]. apply rfc4648_16; unfold byte_value.
    + rewrite H1. apply b64_char_digit.
      apply Nat.Div0.div_lt_upper_bound. lia.
    + rewrite H2. apply b64_char_digit. lia.
    + rewrite H3. apply b64_char_digit. lia.
  - pose proof (nat_ascii_bounded a) as Ha.
    pose proof (nat_ascii_bounded b) as Hb.
    pose proof (nat_ascii_bounded c) as Hc.
    destruct (sextets_24 (nat_of_ascii a) (nat_of_ascii b) (nat_of_ascii c)
                Ha Hb Hc) as (H1 & H2 & H3 & H4).
    pose proof (Nat.mod_upper_bound (nat_of_ascii a) 4).
    pose proof (Nat.mod_upper_bound (nat_of_ascii b) 16).
    pose proof (Nat.mod_upper_bound (nat_of_ascii c) 64).
    assert (nat_of_ascii b / 16 < 16)
      by (apply Nat.Div0.div_lt_upper_bound; lia).
    assert (nat_of_ascii c / 64 < 4)
      by (apply Nat.Div0.div_lt_upper_bound; lia).
    cbn [b64encode]. apply rfc4648_24; unfold byte_value.
    + rewrite H1. apply b64_char_digit.
      apply Nat.Div0.div_lt_upper_bound. lia.
    + rewrite H2. apply b64_char_digit. lia.
    + rewrite H3. apply b64_char_digit. lia.
    + rewrite H4. apply b64_char_digit. lia.
    + apply IH.
Qed.

Lemma headers_get_absent key default : forall hs,
  Forall (fun kv => lower (fst kv) <> lower key) hs ->
  headers_get key hs default = default.
Proof.
  induction 1 as [| [k v] hs Hk _ IH]; [reflexivity |].
  cbn [headers_get fst] in *.
  destruct (String.eqb (lower k) (lower key)) eqn:E; [| exact IH].
  apply String.eqb_eq in E. contradiction.
Qed.

Lemma headers_get_present key default k v hs' : forall hs,
  Forall (fun kv => lower (fst kv) <> lower key) hs ->
  lower k = lower key ->
  headers_get key (hs ++ (k, v) :: hs') default = v.
Proof.
  induction 1 as [| [k0 v0] hs Hk _ IH]; intros Heq.
  - cbn [app headers_get]. rewrite Heq, String.eqb_refl. reflexivity.
  - cbn [app headers_get fst] in *.
    destruct (String.eqb (lower k0) (lower key)) eqn:E; [| exact (IH Heq)].
    apply String.eqb_eq in E. contradiction.
Qed.

(** C6: the inliner always returns a document. Its img tags are those of the
    parsed document, in the same order, each changed as [inlined] says: a
    source starting with http whose fetch has status 200 is replaced by the
    data URL made of the Content-Type header (image/png without one) and the
    base64 encoding of the bytes fetched, the other attributes being kept; a
    fetch with another status or an exception leaves the attributes as they
    are and prints one warning; nothing else of the document changes and the
    warnings are the only lines printed. Every source that begins with
    http:// or https:// starts with http. The payload is the encoding that
    RFC 4648 defines, and the type is the value of the first header named
    Content-Type in any letter case, image/png being used when there is
    none. *)
Theorem inline_images_embeds_fetched_images env html token :
  (exists soup' t,
     inline_images_in_html env html token = (Return (soup_str env soup'), t) /\
     all_inlined env token
       (find_all_imgs (BeautifulSoup env html "html.parser"))
       (find_all_imgs soup') (printed t) /\
     map without_img_attrs soup'
     = map without_img_attrs (BeautifulSoup env html "html.parser")) /\
  (forall a value default,
     attr_get "src" (attr_set "src" value a) default = value /\
     forall other, other <> "src"%string ->
       attr_get other (attr_set "src" value a) default
       = attr_get other a default) /\
  (forall rest,
     starts_with_http ("http://" ++ rest) = true /\
     starts_with_http ("https://" ++ rest) = true) /\
  (forall bytes, rfc4648 bytes (b64encode bytes)) /\
  (forall hs, no_content_type hs ->
     headers_get "Content-Type" hs "image/png" = "image/png"%string) /\
  (forall hs k v hs',
     no_content_type hs -> lower k = "content-type"%string ->
     headers_get "Content-Type" (hs ++ (k, v) :: hs') "image/png" = v).
Proof.
  destruct (inline_images_in_html_spec env token html)
    as (soup' & t & H1 & H2 & H3 & _).
  split; [exists soup', t; auto |].
  split; [| split; [| split; [| split]]].
  - intros a value default. split; [apply attr_get_set_same |].
    intros other Hne. apply attr_get_set_other. exact Hne.
  - intros rest. split; reflexivity.
  - apply b64encode_rfc4648.
  - intros hs H. apply headers_get_absent. exact H.
  - intros hs k v hs' H Hk. apply headers_get_present; assumption.
Qed.

Example gallery_run :
  inline_images_in_html three_issues gallery_html None
  = (Return
       ("<p><img src=" ++ dq ++ "data:image/jpeg;base64,TWFu" ++ dq
        ++ "/><img src=" ++ dq ++ "https://x/missing.png" ++ dq
        ++ "/><img alt=" ++ dq ++ "logo" ++ dq ++ " src=" ++ dq ++ "logo.png" ++ dq
        ++ "/><img src=" ++ dq ++ "HTTPS://x/down.png" ++ dq
        ++ "/><img src=" ++ dq ++ "data:image/png;base64,aGk=" ++ dq
        ++ "/></p>")%string,
     [HttpGet (image_request "https://x/y.png" None);
      HttpGet (image_request "https://x/missing.png" None);
      Print "Warning: Could not fetch image (https://x/missing.png), status=404"%string;
      HttpGet (image_request "HTTPS://x/down.png" None);
      Print "Warning: Exception while inlining image (HTTPS://x/down.png): Connection refused"%string;
      HttpGet (image_request "http://x/bare.png" None)]).
Proof. vm_compute. reflexivity. Qed.

Example b64encode_samples :
  (b64encode "Man", b64encode "Ma", b64encode "M", b64encode EmptyString)
  = ("TWFu", "TWE=", "TQ==", EmptyString)%string.
Proof. vm_compute. reflexivity. Qed.

(** The gallery: a JPEG served with a content-type header in lower case,
    an image that is missing, a local image, an image whose host is down and
    a PNG served without header. *)
Lemma inline_images_embeds_fetched_images_witness :
  exists soup' t,
    inline_images_in_html three_issues gallery_html None
    = (Return (soup_str three_issues soup'), t) /\
    soup_str three_issues soup'
    = ("<p><img src=" ++ dq ++ "data:image/jpeg;base64,TWFu" ++ dq
       ++ "/><img src=" ++ dq ++ "https://x/missing.png" ++ dq
       ++ "/><img alt=" ++ dq ++ "logo" ++ dq ++ " src=" ++ dq ++ "logo.png" ++ dq
       ++ "/><img src=" ++ dq ++ "HTTPS://x/down.png" ++ dq
       ++ "/><img src=" ++ dq ++ "data:image/png;base64,aGk=" ++ dq
       ++ "/></p>")%string /\
    printed t
    = ["Warning: Could not fetch image (https://x/missing.png), status=404";
       "Warning: Exception while inlining image (HTTPS://x/down.png): Connection refused"]%string /\
    rfc4648 "Man" "TWFu" /\ rfc4648 "hi" "aGk=" /\ rfc4648 "f" "Zg==" /\
    rfc4648 "foobar" "Zm9vYmFy" /\
    headers_get "Content-Type" [("content-type", "image/jpeg")] "image/png"
    = "image/jpeg"%string /\
    headers_get "Content-Type"
      [("Server", "nginx"); ("CONTENT-TYPE", "image/gif"); ("Content-Type", "x")]
      "image/png"
    = "image/gif"%string /\
    headers_get "Content-Type" [("Server", "nginx")] "image/png"
    = "image/png"%string.
Proof.
  destruct (inline_images_embeds_fetched_images three_issues gallery_html None)
    as ((soup' & t & Hrun & _) & _ & _ & Hb64 & Hnone & Hsome).
  exists soup', t. split; [exact Hrun |].
  rewrite gallery_run in Hrun. injection Hrun as Hs Ht.
  split; [symmetry; exact Hs |]. split; [rewrite <- Ht; reflexivity |].
  split; [exact (Hb64 "Man"%string) |]. split; [exact (Hb64 "hi"%string) |].
  split; [exact (Hb64 "f"%string) |]. split; [exact (Hb64 "foobar"%string) |].
  split; [| split].
  - apply (Hsome [] "content-type"%string "image/jpeg"%string []);
      [constructor | reflexivity].
  - apply (Hsome [("Server", "nginx")]%string "CONTENT-TYPE"%string
                 "image/gif"%string [("Content-Type", "x")]%string);
      [repeat constructor; discriminate | reflexivity].
  - apply Hnone. repeat constructor. discriminate.
Defined.

(** A fragment without img tag that does not come back as it was given: the
    parser closes the void element when the document is serialised. *)
Lemma reserialised_fragment_differs :
  find_all_imgs (BeautifulSoup three_issues "<br>" "html.parser") = [] /\
  inline_images_in_html three_issues "<br>" None = (Return "<br/>"%string, []) /\
  "<br/>"%string <> "<br>"%string.
Proof.
  split; [vm_compute; reflexivity |].
  split; [vm_compute; reflexivity | discriminate].
Qed.

(** ** The document of one issue *)

Lemma sess_get_quiet {J} (api : Request -> Http J) sess url params :
  quiet (snd (sess_get api sess url params)).
Proof.
  unfold sess_get. destruct (api _); repeat constructor.
Qed.

Lemma next_quiet env owner repo state token fuel : forall g o t,
  fetch_issues_next env fuel owner repo state token g = Some (o, t) -> quiet t.
Proof.
  induction fuel as [| fuel IH]; intros g o t H; [discriminate |].
  rewrite next_S in H. destruct g as [page | page rest].
  - rewrite bindF_some in H.
    assert (Hq : quiet (snd (get_issues_page env owner repo state token page))).
    { unfold get_issues_page, sess_get. destruct (issues_api env _); repeat constructor. }
    destruct (get_issues_page env owner repo state token page) as [[resp | e] t1].
    + cbn [snd] in Hq.
      destruct (negb (status_code resp =? 200)%nat).
      * injection H as <- <-. apply quiet_app; [exact Hq | repeat constructor].
      * destruct (json resp) as [[| i data] |].
        -- injection H as <- <-. apply quiet_app; [exact Hq | constructor].
        -- destruct (fetch_issues_next env fuel owner repo state token
                       (InFor page (i :: data))) as [[o2 t2] |] eqn:E;
             [| discriminate].
           injection H as <- <-. apply quiet_app; [exact Hq | eapply IH; exact E].
        -- injection H as <- <-. apply quiet_app; [exact Hq | constructor].
    + injection H as <- <-. exact Hq.
  - destruct (next_in_page rest) as [[i rest'] |].
    + injection H as <- <-. constructor.
    + eapply IH. exact H.
Qed.

Lemma loop_quiet env sess issue fuel : forall acc page o t,
  fetch_comments_loop env fuel sess issue acc page = Some (o, t) -> quiet t.
Proof.
  induction fuel as [| fuel IH]; intros acc page o t H; [discriminate |].
  cbn [fetch_comments_loop] in H. rewrite bindF_some in H.
  pose proof (sess_get_quiet (comments_api env) sess (comments_url issue)
                (comments_params page per_page)) as Hq.
  destruct (sess_get (comments_api env) sess (comments_url issue)
              (comments_params page per_page)) as [[resp | e] t1]; cbn [snd] in Hq.
  - destruct (negb (status_code resp =? 200)%nat).
    + injection H as <- <-. apply quiet_app; [exact Hq | repeat constructor].
    + destruct (json resp) as [| c data].
      * injection H as <- <-. apply quiet_app; [exact Hq | constructor].
      * destruct (fetch_comments_loop env fuel sess issue (acc ++ c :: data)
                    (page + 1)) as [[o2 t2] |] eqn:E; [| discriminate].
        injection H as <- <-. apply quiet_app; [exact Hq | eapply IH; exact E].
  - injection H as <- <-. exact Hq.
Qed.

Section Pipeline.

Variable env : Environment.

Local Abbreviation tok := (GITHUB_TOKEN env).
Local Abbreviation next fuel g :=
  (fetch_issues_next env fuel OWNER REPO STATE tok g).

(** [create_issue_pdf] returns: the PDF is written, or one line goes to the
    error log when the renderer raises. *)
Lemma create_issue_pdf_spec issue comments token clock :
  exists t,
    create_issue_pdf env issue comments token clock
    = (Return (match render_error env issue comments token with
               | None => clock
               | Some _ => S clock
               end), t) /\
    written_pdfs t = (match render_error env issue comments token with
                      | None => [pdf_path_of issue]
                      | Some _ => []
                      end) /\
    appended_lines t
    = (match render_error env issue comments token with
       | None => []
       | Some ex => [("[" ++ now_strftime env clock ++ "] "
                      ++ issue_error issue ex ++ nl)%string]
       end).
Proof.
  unfold create_issue_pdf, render_error, inlined_html_of.
  rewrite (proj1 (py_format_template env issue comments)).
  destruct (inline_images_in_html_spec env token (full_html_of env issue comments))
    as (soup' & t0 & Hrun & _ & _ & Hq).
  rewrite Hrun.
  destruct (quiet_writes_nothing _ Hq) as [Hw Ha].
  unfold pdfkit_run.
  destruct (pdfkit_from_string env (soup_str env soup') (pdf_path_of issue)
              [("dpi", "300")%string]) as [ex |] eqn:E.
  - eexists. split; [cbn [bind emit print ret raise try_except]; rewrite E; cbn [bind emit print ret raise try_except log_error app]; reflexivity |].
    rewrite written_pdfs_app, appended_lines_app, Hw, Ha. split; reflexivity.
  - eexists. split; [cbn [bind emit print ret raise try_except]; rewrite E; cbn [bind emit print ret raise try_except log_error app]; reflexivity |].
    rewrite written_pdfs_app, appended_lines_app, Hw, Ha. split; reflexivity.
Qed.

Lemma process_issue_mono fuel fuel' issue clock r :
  process_issue env fuel issue clock = Some r -> fuel <= fuel' ->
  process_issue env fuel' issue clock = Some r.
Proof.
  unfold process_issue. rewrite !bindF_some. cbn [print emit].
  intros H Hle. unfold fetch_comments_for_issue in *.
  destruct (fetch_comments_loop env fuel (session_with_auth (GITHUB_TOKEN env))
              issue [] 1) as [[o t] |] eqn:E; [| destruct r; discriminate H].
  rewrite (loop_mono env issue (GITHUB_TOKEN env) fuel fuel' _ _ _ E Hle).
  exact H.
Qed.

(** The body of the loop of [main] for an issue whose comments are
    returned. *)
Lemma process_issue_spec fuel issue clock :
  comments_returned env fuel issue = true ->
  exists clock' t,
    process_issue env fuel issue clock = Some (Return clock', t) /\
    written_pdfs t = (if renders env fuel issue then [pdf_path_of issue] else []) /\
    Forall2 logged (appended_lines t)
            (if renders env fuel issue then [] else [issue]).
Proof.
  unfold comments_returned, renders, comments_of. intros H.
  destruct (fetch_comments_for_issue env fuel issue tok)
    as [[[cs | e] tc] |] eqn:E; try discriminate.
  destruct (create_issue_pdf_spec issue cs tok clock) as (t & Hc & Hw & Ha).
  assert (Hq : quiet tc) by (eapply loop_quiet; exact E).
  destruct (quiet_writes_nothing _ Hq) as [Hw' Ha'].
  do 2 eexists. split.
  - unfold process_issue. rewrite bindF_some. cbn [print emit].
    rewrite E. cbn [bindF]. rewrite Hc. reflexivity.
  - cbn [app written_pdfs appended_lines].
    rewrite written_pdfs_app, appended_lines_app, Hw, Ha, Hw', Ha'. cbn [app].
    destruct (render_error env issue cs tok) as [ex |].
    + split; [reflexivity |]. constructor; [| constructor].
      exists (now_strftime env clock), ex. reflexivity.
    + split; [reflexivity | constructor].
Qed.

Lemma main_loop_S fuel g total clock :
  main_loop env (S fuel) g total clock =
  bindF (next (S fuel) g)
    (fun step =>
       match step with
       | StopIteration => Some (ret total)
       | Yield issue_data g' =>
           bindF (process_issue env (S fuel) issue_data clock)
                 (fun clock' => main_loop env fuel g' (total + 1) clock')
       end).
Proof. reflexivity. Qed.

Lemma main_loop_mono fuel : forall fuel' g total clock r,
  main_loop env fuel g total clock = Some r -> fuel <= fuel' ->
  main_loop env fuel' g total clock = Some r.
Proof.
  induction fuel as [| fuel IH]; intros fuel' g total clock r H Hle;
    [discriminate |].
  destruct fuel' as [| fuel']; [lia |].
  rewrite main_loop_S in *.
  destruct (next (S fuel) g) as [[[[i g' |] | e] t] |] eqn:E; try discriminate;
    rewrite (next_mono env OWNER REPO STATE tok _ (S fuel') _ _ E) by lia;
    try exact H.
  cbn [bindF] in *.
  destruct (process_issue env (S fuel) i clock) as [[[c' | e] tp] |] eqn:Ep;
    try discriminate;
    rewrite (process_issue_mono _ (S fuel') _ _ _ Ep) by lia; [| exact H].
  cbn [bindF] in *.
  destruct (main_loop env fuel g' (total + 1) c') as [[o tm] |] eqn:Em;
    [| discriminate].
  rewrite (IH fuel' _ _ _ _ Em) by lia. exact H.
Qed.

(** The loop of [main] consumes the generator: it handles the issues the
    generator yields and ends as the generator ends. *)
Lemma main_loop_follows_generator fc : forall f g issues out t0,
  drain env f OWNER REPO STATE tok g = Some (issues, out, t0) ->
  forallb (comments_returned env fc) issues = true ->
  forall total clock, exists f' t,
    main_loop env f' g total clock
    = Some (match out with
            | Return _ => Return (total + List.length issues)
            | Raise e => Raise e
            end, t) /\
    written_pdfs t = map pdf_path_of (filter (renders env fc) issues) /\
    Forall2 logged (appended_lines t)
            (filter (fun i => negb (renders env fc i)) issues) /\
    exists pre pre0 fL gL tL,
      t = pre ++ tL /\ t0 = pre0 ++ tL /\ next fL gL = Some (step_of out, tL).
Proof.
  induction f as [| f IH]; intros g issues out t0 Hrun Hcs total clock;
    [discriminate |].
  rewrite run_S in Hrun.
  destruct (next (S f) g) as [[[[i g' |] | e] t] |] eqn:E; try discriminate.
  - destruct (drain env f OWNER REPO STATE tok g') as [[[rest o] t'] |] eqn:Er;
      [| discriminate].
    injection Hrun as <- <- <-.
    cbn [forallb] in Hcs. apply andb_true_iff in Hcs. destruct Hcs as [Hc Hcs].
    destruct (process_issue_spec fc i clock Hc) as (clock' & tp & Hp & Hpw & Hpa).
    destruct (IH g' rest o t' Er Hcs (total + 1) clock')
      as (f1 & t1 & Hm & Hw & Ha & pre & pre0 & fL & gL & tL & Hsplit & Hsplit0 & HL).
    exists (S (Nat.max (Nat.max (S f) fc) f1)), (t ++ tp ++ t1).
    split; [| split; [| split]].
    + rewrite main_loop_S.
      rewrite (next_mono env OWNER REPO STATE tok _ _ _ _ E) by lia.
      cbn [bindF]. rewrite (process_issue_mono _ _ _ _ _ Hp) by lia.
      cbn [bindF]. rewrite (main_loop_mono _ _ _ _ _ _ Hm) by lia.
      cbn [List.length]. replace (total + S (List.length rest))
        with (total + 1 + List.length rest) by lia.
      reflexivity.
    + rewrite !written_pdfs_app, Hpw, Hw.
      destruct (quiet_writes_nothing t) as [-> _].
      { eapply next_quiet. exact E. }
      cbn [filter]. destruct (renders env fc i); reflexivity.
    + rewrite !appended_lines_app.
      destruct (quiet_writes_nothing t) as [_ ->].
      { eapply next_quiet. exact E. }
      cbn [filter app]. destruct (renders env fc i); cbn [negb].
      * inversion Hpa; subst. exact Ha.
      * exact (Forall2_app Hpa Ha).
    + exists (t ++ tp ++ pre), (t ++ pre0), fL, gL, tL.
      split; [| split; [| exact HL]].
      * rewrite Hsplit, <- !app_assoc. reflexivity.
      * rewrite Hsplit0, <- !app_assoc. reflexivity.
  - injection Hrun as <- <- <-.
    exists (S f), (t ++ []). split; [| split; [| split]].
    + rewrite main_loop_S, E. cbn [bindF ret List.length].
      rewrite Nat.add_0_r. reflexivity.
    + rewrite app_nil_r. apply (quiet_writes_nothing t).
      eapply next_quiet. exact E.
    + rewrite app_nil_r. destruct (quiet_writes_nothing t) as [_ ->];
        [eapply next_quiet; exact E | constructor].
    + exists [], [], (S f), g, t. rewrite app_nil_r.
      split; [reflexivity | split; [reflexivity | exact E]].
  - injection Hrun as <- <- <-.
    exists (S f), t. split; [| split; [| split]].
    + rewrite main_loop_S, E. reflexivity.
    + apply (quiet_writes_nothing t). eapply next_quiet. exact E.
    + destruct (quiet_writes_nothing t) as [_ ->];
        [eapply next_quiet; exact E | constructor].
    + exists [], [], (S f), g, t.
      split; [reflexivity | split; [reflexivity | exact E]].
Qed.

End Pipeline.

(** ** The whole run *)

Lemma app_inj_tail2 {A} (x y : list A) a b c d :
  x ++ [a; b] = y ++ [c; d] -> a = c /\ b = d.
Proof.
  intros H.
  change (x ++ [a; b]) with (x ++ [a] ++ [b]) in H.
  change (y ++ [c; d]) with (y ++ [c] ++ [d]) in H.
  rewrite !app_assoc in H.
  apply app_inj_tail in H. destruct H as [H ->].
  apply app_inj_tail in H. destruct H as [_ ->]. split; reflexivity.
Qed.

Lemma next_exit_trace env owner repo state token fuel : forall g code t,
  fetch_issues_next env fuel owner repo state token g
  = Some (Raise (SystemExit code), t) ->
  exists pre q line, t = pre ++ [HttpGet q; Print line].
Proof.
  induction fuel as [| fuel IH]; intros g code t H; [discriminate |].
  rewrite next_S in H. destruct g as [page | page rest].
  - rewrite bindF_some in H. unfold get_issues_page, sess_get in H.
    destruct (issues_api env _) as [resp | msg]; cbn in H; [| discriminate].
    destruct (negb (status_code resp =? 200)%nat).
    + injection H as <- <-. eexists [_], _, _. reflexivity.
    + destruct (json resp) as [[| i data] |]; try discriminate.
      destruct (fetch_issues_next env fuel owner repo state token
                  (InFor page (i :: data))) as [[o2 t2] |] eqn:E;
        [| discriminate].
      injection H as -> <-.
      destruct (IH _ _ _ E) as (pre & q & line & ->).
      eexists (_ :: _ :: pre), q, line. reflexivity.
  - destruct (next_in_page rest) as [[i rest'] |]; [discriminate |].
    eapply IH. exact H.
Qed.

Section Run.

Variable env : Environment.

Local Abbreviation tok := (GITHUB_TOKEN env).
Local Abbreviation request page :=
  (issues_request OWNER REPO STATE tok page).

Lemma fatal_after t1 t2 o : fatal env t2 o -> fatal env (t1 ++ t2) o.
Proof.
  intros [p r Hp Hin | p msg Hp Hin | i' p msg Hp Hin].
  - apply (fatal_listing_status env _ p r Hp). apply in_or_app. auto.
  - apply (fatal_listing_exception env _ p msg Hp). apply in_or_app. auto.
  - apply (fatal_comments_exception env _ i' p msg Hp). apply in_or_app. auto.
Qed.

Lemma next_raises fuel : forall g e t,
  fetch_issues_next env fuel OWNER REPO STATE tok g = Some (Raise e, t) ->
  fatal env t (Raise e).
Proof.
  induction fuel as [| fuel IH]; intros g e t H; [discriminate |].
  rewrite next_S in H. destruct g as [page | page rest].
  - rewrite bindF_some in H.
    destruct (issues_api env (request page)) as [resp | msg] eqn:Hr.
    + rewrite (get_issues_page_responds _ _ _ _ _ _ _ Hr) in H.
      destruct (Nat.eq_dec (status_code resp) 200) as [Hs | Hs].
      * rewrite Hs in H. cbn [Nat.eqb negb] in H.
        change (200 =? 200)%nat with true in H. cbn [negb] in H.
        destruct (json resp) as [[| i data] |]; try discriminate.
        destruct (fetch_issues_next env fuel OWNER REPO STATE tok
                    (InFor page (i :: data))) as [[o2 t2] |] eqn:E;
          [| discriminate].
        injection H as -> <-.
        apply (fatal_after [_; _]). eapply IH. exact E.
      * pose proof Hs as Hs'. apply Nat.eqb_neq in Hs'. rewrite Hs' in H.
        injection H as <- <-.
        apply (fatal_listing_status env _ page resp); [split; assumption |].
        right. left. reflexivity.
    + rewrite (get_issues_page_fails _ _ _ _ _ _ _ Hr) in H.
      injection H as <- <-.
      apply (fatal_listing_exception env _ page msg Hr). right. left. reflexivity.
  - destruct (next_in_page rest) as [[i rest'] |]; [discriminate |].
    eapply IH. exact H.
Qed.

Lemma loop_raises issue fuel : forall acc page e t,
  fetch_comments_loop env fuel (session_with_auth tok) issue acc page
  = Some (Raise e, t) ->
  fatal env t (Raise e).
Proof.
  induction fuel as [| fuel IH]; intros acc page e t H; [discriminate |].
  destruct (comments_api env (comments_request issue tok page))
    as [resp | msg] eqn:Hr.
  - destruct (Nat.eq_dec (status_code resp) 200) as [Hs | Hs].
    + destruct (json resp) as [| c data] eqn:Hj.
      * rewrite (loop_mono env issue tok 1 (S fuel) acc page _
                   (loop_empty env issue tok acc page
                      (ex_intro _ resp (conj Hr (conj Hs Hj))))) in H by lia.
        discriminate.
      * rewrite (loop_served env issue tok fuel acc page (c :: data)) in H;
          [| discriminate | exists resp; auto].
        destruct (fetch_comments_loop env fuel (session_with_auth tok) issue
                    (acc ++ c :: data) (page + 1)) as [[o2 t2] |] eqn:E;
          [| discriminate].
        cbn [after] in H. injection H as -> <-.
        apply (fatal_after [_]). eapply IH. exact E.
    + rewrite (loop_mono env issue tok 1 (S fuel) acc page _
                 (loop_refused env issue tok acc page resp (conj Hr Hs))) in H by lia.
      discriminate.
  - rewrite (loop_mono env issue tok 1 (S fuel) acc page _
               (loop_fails env issue tok acc page msg Hr)) in H by lia.
    injection H as <- <-.
    apply (fatal_comments_exception env _ issue page msg Hr). left. reflexivity.
Qed.

Lemma process_issue_raises fuel issue clock e t :
  process_issue env fuel issue clock = Some (Raise e, t) ->
  fatal env t (Raise e).
Proof.
  unfold process_issue. rewrite bindF_some. cbn [print emit].
  unfold fetch_comments_for_issue.
  destruct (fetch_comments_loop env fuel (session_with_auth tok) issue [] 1)
    as [[[cs | e'] tc] |] eqn:E; cbn [bindF]; try discriminate.
  - destruct (create_issue_pdf_spec env issue cs tok clock) as (tp & -> & _).
    discriminate.
  - intros H. injection H as <- <-.
    apply (fatal_after [_]). eapply loop_raises. exact E.
Qed.

Lemma main_loop_raises fuel : forall g total clock e t,
  main_loop env fuel g total clock = Some (Raise e, t) ->
  fatal env t (Raise e).
Proof.
  induction fuel as [| fuel IH]; intros g total clock e t H; [discriminate |].
  rewrite main_loop_S in H.
  destruct (fetch_issues_next env (S fuel) OWNER REPO STATE (GITHUB_TOKEN env) g)
    as [[[[i g' |] | e1] t1] |] eqn:E; cbn [bindF] in H; try discriminate.
  - destruct (process_issue env (S fuel) i clock) as [[[c' | e2] tp] |] eqn:Ep;
      cbn [bindF] in H; try discriminate.
    + destruct (main_loop env fuel g' (total + 1) c') as [[o tm] |] eqn:Em;
        [| discriminate].
      injection H as -> <-.
      apply fatal_after, fatal_after. eapply IH. exact Em.
    + injection H as <- <-.
      apply fatal_after. eapply process_issue_raises. exact Ep.
  - injection H as <- <-. eapply next_raises. exact E.
Qed.

(** Every run that ends by an exception has one of the causes of [fatal]. *)
Lemma main_raises fuel e t :
  main env fuel = Some (Raise e, t) -> fatal env t (Raise e).
Proof.
  unfold main. rewrite bindF_some. cbn [print emit].
  destruct (main_loop env fuel (AtWhile 1) 0 0) as [[[total | e1] tm] |] eqn:E;
    cbn [bindF]; try discriminate.
  intros H. injection H as <- <-.
  apply (fatal_after [_]). eapply main_loop_raises. exact E.
Qed.

Lemma main_of_loop fuel out total t :
  main_loop env fuel (AtWhile 1) 0 0
  = Some (match out with
          | Return _ => Return total
          | Raise e => Raise e
          end, t) ->
  exists pre,
    main env fuel
    = Some (out, pre ++ t ++ match out with
                             | Return _ => [Print (done_message total)]
                             | Raise _ => []
                             end) /\
    written_pdfs pre = [] /\ appended_lines pre = [].
Proof.
  intros H. eexists [_]. unfold main. rewrite bindF_some. cbn [print emit].
  rewrite H. destruct out as [[] | e]; cbn [bindF].
  - split; [reflexivity | split; reflexivity].
  - rewrite app_nil_r. split; [reflexivity | split; reflexivity].
Qed.



End Run.


Example three_issues_run :
  option_map (fun r => (fst r, written_pdfs (snd r),
                        List.length (appended_lines (snd r)),
                        last (printed (snd r)) EmptyString))
             (main three_issues 10)
  = Some (Return tt,
          ["Exported_PDFs/UAX-Technologies-DeckRC/issue_1.pdf";
           "Exported_PDFs/UAX-Technologies-DeckRC/issue_3.pdf"]%string,
          1,
          String "010"
            "Done! Exported 3 issues to PDF in 'Exported_PDFs/UAX-Technologies-DeckRC'."%string).
Proof. vm_compute. reflexivity. Qed.


Lemma comments_trace_app issue token n : forall page m,
  comments_trace issue token page (n + m)
  = comments_trace issue token page n
    ++ comments_trace issue token (page + n) m.
Proof.
  induction n as [| n IH]; intros page m.
  - cbn. rewrite Nat.add_0_r. reflexivity.
  - cbn [Nat.add comments_trace app]. rewrite IH.
    replace (S page + n) with (page + S n) by lia. reflexivity.
Qed.

(** C4, as the code has it: when the listing serves [pages] and then
    answers with a status other than 200, and the comments of the issues
    yielded before are returned, the run ends with [SystemExit 1] (exit
    status 1) right after printing the error of that request: the PDF files
    and log lines of the run are those of the issues of the earlier pages.
    A run ends with a status other than 0 for one of the causes of [fatal]
    only: such a listing answer, or a transport exception of a listing or
    comment request, which no handler catches. *)
Theorem listing_failure_exits env pages r fc :
  serves_issue_pages env OWNER REPO STATE (GITHUB_TOKEN env) 1 pages ->
  refuses (issues_api env (issues_request OWNER REPO STATE (GITHUB_TOKEN env)
                             (1 + List.length pages))) r ->
  forallb (comments_returned env fc) (non_pull_requests (concat pages)) = true ->
  (exists fuel t pre,
     main env fuel = Some (Raise (SystemExit 1), t) /\
     exit_status (Raise (SystemExit 1)) = 1%Z /\
     t = pre ++ [HttpGet (issues_request OWNER REPO STATE (GITHUB_TOKEN env)
                            (1 + List.length pages));
                 Print (listing_error r)] /\
     written_pdfs t
     = map pdf_path_of (filter (renders env fc) (non_pull_requests (concat pages))) /\
     Forall2 logged (appended_lines t)
       (filter (fun i => negb (renders env fc i))
               (non_pull_requests (concat pages)))) /\
  (forall fuel o t,
     main env fuel = Some (o, t) -> exit_status o <> 0%Z -> fatal env t o).
Proof.
  intros Hp Hr Hcs. split.
  - destruct (run_pages env OWNER REPO STATE (GITHUB_TOKEN env) []
                (Raise (SystemExit 1))
                [Print ("Fetching issues page "
                        ++ str_nat (1 + List.length pages) ++ "...")%string;
                 HttpGet (issues_request OWNER REPO STATE (GITHUB_TOKEN env)
                            (1 + List.length pages));
                 Print (listing_error r)]
                pages 1 Hp) as [f Hf].
    { exists 2. apply run_raise. apply next_page_refused. exact Hr. }
    rewrite app_nil_r in Hf.
    destruct (main_loop_follows_generator env fc f (AtWhile 1) _ _ _ Hf Hcs 0 0)
      as (f' & t & Hm & Hw & Ha & pre & pre0 & fL & gL & tL & Ht & Ht0 & HL).
    cbn [step_of] in HL.
    destruct (next_exit_trace _ _ _ _ _ _ _ _ _ HL) as (pre' & q & line & ->).
    destruct (main_of_loop env f' (Raise (SystemExit 1)) 0 t Hm)
      as (pre1 & Hmain & Hpw & Hpa).
    rewrite app_nil_r in Hmain.
    assert (Hlast : HttpGet q
                    = HttpGet (issues_request OWNER REPO STATE (GITHUB_TOKEN env)
                                 (1 + List.length pages))
                    /\ Print line = Print (listing_error r)).
    { apply (app_inj_tail2 (pre0 ++ pre')
               (listing_trace OWNER REPO STATE (GITHUB_TOKEN env) 1
                  (List.length pages)
                ++ [Print ("Fetching issues page "
                           ++ str_nat (1 + List.length pages) ++ "...")%string])).
      rewrite <- !app_assoc. rewrite <- Ht0. reflexivity. }
    destruct Hlast as [Hq Hline]. rewrite Hq, Hline in Ht.
    exists f', (pre1 ++ t), (pre1 ++ pre ++ pre').
    split; [exact Hmain |]. split; [reflexivity |]. split; [| split].
    + rewrite Ht, <- !app_assoc. reflexivity.
    + rewrite written_pdfs_app, Hpw. exact Hw.
    + rewrite appended_lines_app, Hpa. exact Ha.
  - intros fuel [[] | e] t Hmain Hexit.
    + cbn in Hexit. congruence.
    + eapply main_raises. exact Hmain.
Qed.

(** C5: when the comment endpoint serves [pages] and then answers with a
    status other than 200, the fetcher prints one message, sends no further
    request and returns the comments of the pages served, in order (none
    when the first page is refused); the loop body of [main] returns for
    this issue and [main] goes on with the rest of the generator, the issue
    counted. *)
Theorem comment_failure_returns_partial_list env issue pages r :
  serves_comment_pages env issue (GITHUB_TOKEN env) 1 pages ->
  refuses (comments_api env (comments_request issue (GITHUB_TOKEN env)
                               (1 + List.length pages))) r ->
  exists fuel0, forall fuel, fuel0 <= fuel ->
    fetch_comments_for_issue env fuel issue (GITHUB_TOKEN env)
    = Some (Return (concat pages),
            comments_trace issue (GITHUB_TOKEN env) 1 (S (List.length pages))
            ++ [Print (comments_error issue r)]) /\
    forall clock, exists clock' t,
      process_issue env fuel issue clock = Some (Return clock', t) /\
      forall g g' t0 total,
        fetch_issues_next env fuel OWNER REPO STATE (GITHUB_TOKEN env) g
        = Some (Return (Yield issue g'), t0) ->
        main_loop env (S fuel) g total clock
        = after (t0 ++ t) (main_loop env fuel g' (total + 1) clock').
Proof.
  intros Hp Hr.
  destruct (loop_pages env issue (GITHUB_TOKEN env) (Return (concat pages))
              [HttpGet (comments_request issue (GITHUB_TOKEN env)
                          (1 + List.length pages));
               Print (comments_error issue r)]
              pages [] 1 Hp) as [f Hf].
  { exists 1. apply loop_refused. exact Hr. }
  exists f. intros fuel Hle.
  assert (Hfetch : fetch_comments_for_issue env fuel issue (GITHUB_TOKEN env)
                   = Some (Return (concat pages),
                           comments_trace issue (GITHUB_TOKEN env) 1
                             (S (List.length pages))
                           ++ [Print (comments_error issue r)])).
  { unfold fetch_comments_for_issue.
    rewrite (loop_mono env issue (GITHUB_TOKEN env) f fuel _ _ _ Hf Hle).
    replace (S (List.length pages)) with (List.length pages + 1) by lia.
    rewrite comments_trace_app, <- app_assoc. reflexivity. }
  split; [exact Hfetch |]. intros clock.
  destruct (process_issue_spec env fuel issue clock) as (clock' & t & Hproc & _).
  { unfold comments_returned. rewrite Hfetch. reflexivity. }
  exists clock', t. split; [exact Hproc |].
  intros g g' t0 total Hnext.
  rewrite main_loop_S.
  rewrite (next_mono env OWNER REPO STATE (GITHUB_TOKEN env) fuel (S fuel)
             _ _ Hnext) by lia.
  cbn [bindF].
  rewrite (process_issue_mono env fuel (S fuel) _ _ _ Hproc) by lia.
  cbn [bindF].
  destruct (main_loop env fuel g' (total + 1) clock') as [[o tm] |];
    [| reflexivity].
  cbn [after]. rewrite <- app_assoc. reflexivity.
Qed.

Example failing_listing_run :
  option_map (fun r => (fst r, exit_status (fst r), written_pdfs (snd r),
                        last (printed (snd r)) EmptyString))
             (main failing_listing 10)
  = Some (Raise (SystemExit 1), 1%Z,
          ["Exported_PDFs/UAX-Technologies-DeckRC/issue_1.pdf";
           "Exported_PDFs/UAX-Technologies-DeckRC/issue_2.pdf"]%string,
          "Error: 500 Server Error"%string).
Proof. vm_compute. reflexivity. Qed.

Lemma listing_failure_exits_witness :
  (exists fuel t pre,
     main failing_listing fuel = Some (Raise (SystemExit 1), t) /\
     exit_status (Raise (SystemExit 1)) = 1%Z /\
     t = pre ++ [HttpGet (issues_request OWNER REPO STATE None 2);
                 Print "Error: 500 Server Error"%string] /\
     written_pdfs t
     = ["Exported_PDFs/UAX-Technologies-DeckRC/issue_1.pdf";
        "Exported_PDFs/UAX-Technologies-DeckRC/issue_2.pdf"]%string).
Proof.
  destruct (proj1 (listing_failure_exits failing_listing
                     [[demo_issue 1 "Crash on startup"; demo_issue 2 "Second"]]
                     (mkResponse 500 "Server Error" [] EmptyString (JList []))
                     2 ltac:(served) ltac:(served)
                     ltac:(vm_compute; reflexivity)))
    as (f & t & pre & Hmain & Hexit & Ht & Hpdf & _).
  exists f, t, pre. split; [exact Hmain |]. split; [exact Hexit |].
  split; [exact Ht |]. rewrite Hpdf. vm_compute. reflexivity.
Defined.

(** A run in which every listing request is answered with status 200 and
    which ends with exit status 1 all the same: the request of the comments
    of the first issue raises, nothing catches the exception, and no PDF is
    written for either issue. *)
Lemma transport_exception_aborts_the_run :
  (forall req, exists r,
     issues_api broken_comments req = Responds r /\ status_code r = 200) /\
  option_map (fun r => (fst r, exit_status (fst r), written_pdfs (snd r),
                        map req_url (requested (snd r))))
             (main broken_comments 10)
  = Some (Raise (Exception "Connection reset by peer"), 1%Z, [],
          ["https://api.github.com/repos/UAX-Technologies/DeckRC/issues";
           "https://api.github.com/repos/UAX-Technologies/DeckRC/issues/1/comments"]%string).
Proof.
  split.
  - intros req. cbn [issues_api broken_comments demo_env].
    unfold first_page_only.
    destruct (String.eqb _ _); eexists; split; reflexivity.
  - vm_compute. reflexivity.
Qed.

Lemma comment_failure_returns_partial_list_witness :
  exists fuel0, forall fuel, fuel0 <= fuel ->
    fetch_comments_for_issue partial_comments fuel
      (demo_issue 1 "Crash on startup") None
    = Some (Return [demo_comment "bob" "Same here"; demo_comment "carol" "Me too";
                    demo_comment "dave" "Any news?"],
            [HttpGet (comments_request (demo_issue 1 "Crash on startup") None 1);
             HttpGet (comments_request (demo_issue 1 "Crash on startup") None 2);
             HttpGet (comments_request (demo_issue 1 "Crash on startup") None 3);
             Print "Error fetching comments for issue #1: 502"%string]) /\
    forall clock, exists clock' t,
      process_issue partial_comments fuel (demo_issue 1 "Crash on startup") clock
      = Some (Return clock', t).
Proof.
  destruct (comment_failure_returns_partial_list partial_comments
              (demo_issue 1 "Crash on startup")
              [[demo_comment "bob" "Same here"; demo_comment "carol" "Me too"];
               [demo_comment "dave" "Any news?"]]
              (mkResponse 502 "Bad Gateway" [] EmptyString [])
              ltac:(served) ltac:(served)) as [f Hf].
  exists f. intros fuel Hle. destruct (Hf fuel Hle) as [Hfetch Hproc].
  split; [exact Hfetch |]. intros clock.
  destruct (Hproc clock) as (clock' & t & Hp & _). eauto.
Defined.
(** C9, as the code has it: for every issue, whatever its title, body and
    other fields hold, the template substitution of [create_issue_pdf]
    returns: [str.format] scans the template only, in which every literal
    brace is doubled and every field is one of the twelve keyword arguments,
    and puts the title and the rendered body into the document as they are,
    braces included. *)
Theorem template_substitution_never_raises env issue comments :
  py_format HTML_TEMPLATE (template_kwargs env issue comments)
  = Return (full_html_of env issue comments) /\
  snd (markup None HTML_TEMPLATE) = None /\
  incl (fields (fst (markup None HTML_TEMPLATE)))
       (map fst (template_kwargs env issue comments)) /\
  (exists pre post,
     full_html_of env issue comments
     = (pre ++ get_or (title issue) ("Issue " ++ str_Z (number issue)) ++ post)%string) /\
  (exists pre post,
     full_html_of env issue comments
     = (pre ++ markdown_to_html env (body issue) ++ post)%string).
Proof.
  destruct (py_format_template env issue comments) as [Hfmt Hrender].
  split; [exact Hfmt |]. split; [exact template_well_formed |].
  split; [| split].
  - rewrite template_fields, template_kwargs_names.
    intros n Hn. cbn in Hn |- *. intuition.
  - apply (render_inserts _ "issue_title" _ _ _ Hrender).
    + rewrite template_fields. cbn. auto.
    + reflexivity.
  - apply (render_inserts _ "issue_body_html" _ _ _ Hrender).
    + rewrite template_fields. cbn. auto 20.
    + reflexivity.
Qed.

(** The renderer receives the empty text for a body that is absent. *)
Lemma markdown_to_html_absent_body env :
  markdown_to_html env None = markdown_to_html env (Some EmptyString) /\
  markdown_to_html env None
  = markdown2_markdown env EmptyString
      ["fenced-code-blocks"; "tables"; "strike"]%string.
Proof. split; reflexivity. Qed.

Example format_samples :
  py_format "a{{b}}{x}-{y}" [("x", "{1}"); ("y", "}")]%string
  = Return "a{b}{1}-}"%string /\
  py_format "a}{x}" [("x", "1")]%string
  = Raise (Exception "Single '}' encountered in format string") /\
  py_format "{z}" [("x", "1")]%string = Raise (Exception "'z'").
Proof. repeat split; vm_compute; reflexivity. Qed.

(** An issue with braces in its title and body is exported like any other,
    and no issue makes the substitution raise. *)
Lemma braces_do_not_break_the_template :
  has_brace "Crash in {config}" = true /\
  has_brace (markdown_to_html brace_listing (body brace_issue)) = true /\
  (exists html,
     py_format HTML_TEMPLATE (template_kwargs brace_listing brace_issue [])
     = Return html) /\
  option_map (fun r => (fst r, written_pdfs (snd r), appended_lines (snd r)))
             (main brace_listing 10)
  = Some (Return tt, ["Exported_PDFs/UAX-Technologies-DeckRC/issue_9.pdf"%string], []) /\
  ~ (exists env issue comments e,
       (has_brace (get_or (title issue) EmptyString) = true \/
        has_brace (markdown_to_html env (body issue)) = true) /\
       py_format HTML_TEMPLATE (template_kwargs env issue comments) = Raise e).
Proof.
  split; [vm_compute; reflexivity |].
  split; [vm_compute; reflexivity |].
  split; [eexists; vm_compute; reflexivity |].
  split; [vm_compute; reflexivity |].
  intros (env & issue & comments & e & _ & H).
  rewrite (proj1 (py_format_template env issue comments)) in H. discriminate.
Qed.

(** * Further properties of the code *)

(** ** Paging of comments *)

(** X1: when the comment endpoint serves the non-empty pages [pages] and then
    an empty page, [fetch_comments_for_issue] returns the comments of all
    pages in the order of the pages; it has asked for pages 1 to
    [length pages + 1], each with the page size 100, and has printed
    nothing. *)
Theorem fetch_comments_returns_all_pages env issue token pages :
  serves_comment_pages env issue token 1 pages ->
  serves (comments_api env (comments_request issue token (1 + List.length pages)))
         [] ->
  exists fuel0, forall fuel, fuel0 <= fuel ->
    exists t,
      fetch_comments_for_issue env fuel issue token
      = Some (Return (concat pages), t) /\
      requested t = map (comments_request issue token)
                        (seq 1 (S (List.length pages))) /\
      Forall (fun q => kwargs_get "per_page" (req_params q) = Some "100"%string)
             (requested t) /\
      printed t = [].
Proof.
  intros Hp He.
  destruct (loop_pages env issue token (Return (concat pages))
              [HttpGet (comments_request issue token (1 + List.length pages))]
              pages [] 1 Hp) as [f Hf].
  { exists 1. apply loop_empty. exact He. }
  exists f. intros fuel Hle. eexists. split.
  - unfold fetch_comments_for_issue.
    apply (loop_mono env issue token f fuel _ _ _ Hf Hle).
  - assert (Htrace : forall n page,
              requested (comments_trace issue token page n)
              = map (comments_request issue token) (seq page n) /\
              printed (comments_trace issue token page n) = []).
    { induction n as [| n IH]; intros page; [split; reflexivity |].
      destruct (IH (S page)) as [IH1 IH2].
      cbn [comments_trace requested printed seq map]. rewrite IH1, IH2.
      split; reflexivity. }
    destruct (Htrace (List.length pages) 1) as [Hreq Hpr].
    rewrite requested_app, printed_app, Hreq, Hpr.
    replace (S (List.length pages)) with (List.length pages + 1) by lia.
    rewrite seq_app, map_app. cbn [requested printed seq map app].
    split; [reflexivity |]. split; [| reflexivity].
    apply Forall_forall. intros q Hq. apply in_app_or in Hq.
    destruct Hq as [Hq | [<- | []]]; [| reflexivity].
    apply in_map_iff in Hq. destruct Hq as (p & <- & _). reflexivity.
Qed.

Lemma fetch_comments_returns_all_pages_witness :
  exists fuel0, forall fuel, fuel0 <= fuel ->
    exists t,
      fetch_comments_for_issue three_issues fuel
        (demo_issue 1 "Crash on startup") None
      = Some (Return [demo_comment "bob" "Same here";
                      demo_comment "carol" "Fixed in main"], t) /\
      map page_of (requested t) = [1; 2] /\
      printed t = [].
Proof.
  destruct (fetch_comments_returns_all_pages three_issues
              (demo_issue 1 "Crash on startup") None
              [[demo_comment "bob" "Same here"; demo_comment "carol" "Fixed in main"]]
              ltac:(served) ltac:(served)) as [f Hf].
  exists f. intros fuel Hle.
  destruct (Hf fuel Hle) as (t & Hrun & Hreq & _ & Hpr).
  exists t. split; [exact Hrun |]. split; [| exact Hpr].
  rewrite Hreq. vm_compute. reflexivity.
Defined.

(** X2: when a comment request raises after the pages [pages] were served,
    [fetch_comments_for_issue] raises the same exception and the comments of
    the pages served are lost; [main] has no handler for it: the run ends
    there with that exception, and neither a PDF nor a line of the error log
    is written for the issue. *)
Theorem comment_exception_aborts_the_run env issue pages msg :
  serves_comment_pages env issue (GITHUB_TOKEN env) 1 pages ->
  comments_api env (comments_request issue (GITHUB_TOKEN env)
                      (1 + List.length pages)) = Fails msg ->
  exists fuel0, forall fuel, fuel0 <= fuel ->
    fetch_comments_for_issue env fuel issue (GITHUB_TOKEN env)
    = Some (Raise (Exception msg),
            comments_trace issue (GITHUB_TOKEN env) 1 (S (List.length pages))) /\
    forall g g' t0 total clock,
      fetch_issues_next env fuel OWNER REPO STATE (GITHUB_TOKEN env) g
      = Some (Return (Yield issue g'), t0) ->
      exists t,
        main_loop env (S fuel) g total clock = Some (Raise (Exception msg), t) /\
        t = t0 ++ Print (processing_line issue)
               :: comments_trace issue (GITHUB_TOKEN env) 1 (S (List.length pages)) /\
        written_pdfs t = [] /\ appended_lines t = [].
Proof.
  intros Hp Hfail.
  destruct (loop_pages env issue (GITHUB_TOKEN env) (Raise (Exception msg))
              [HttpGet (comments_request issue (GITHUB_TOKEN env)
                          (1 + List.length pages))]
              pages [] 1 Hp) as [f Hf].
  { exists 1. apply loop_fails. exact Hfail. }
  exists f. intros fuel Hle.
  assert (Hfetch : forall fuel', fuel <= fuel' ->
            fetch_comments_for_issue env fuel' issue (GITHUB_TOKEN env)
            = Some (Raise (Exception msg),
                    comments_trace issue (GITHUB_TOKEN env) 1
                      (S (List.length pages)))).
  { intros fuel' Hle'. unfold fetch_comments_for_issue.
    rewrite (loop_mono env issue (GITHUB_TOKEN env) f fuel' _ _ _ Hf) by lia.
    replace (S (List.length pages)) with (List.length pages + 1) by lia.
    rewrite comments_trace_app. reflexivity. }
  split; [apply Hfetch; lia |].
  intros g g' t0 total clock Hnext. eexists. split; [| split; [reflexivity |]].
  - rewrite main_loop_S.
    rewrite (next_mono env OWNER REPO STATE (GITHUB_TOKEN env) fuel (S fuel)
               _ _ Hnext) by lia.
    cbn [bindF]. unfold process_issue. rewrite bindF_some. cbn [print emit].
    rewrite (Hfetch (S fuel)) by lia. cbn [bindF app]. reflexivity.
  - assert (Hq : quiet (comments_trace issue (GITHUB_TOKEN env) 1
                          (S (List.length pages)))).
    { eapply loop_quiet. exact (Hfetch fuel (Nat.le_refl _)). }
    assert (Hq0 : quiet t0) by (eapply next_quiet; exact Hnext).
    apply quiet_writes_nothing. apply quiet_app; [exact Hq0 |].
    constructor; [exact I | exact Hq].
Qed.

Example broken_comments_run :
  option_map (fun r => (fst r, printed (snd r)))
             (main broken_comments 10)
  = Some (Raise (Exception "Connection reset by peer"),
          ["Exporting 'UAX-Technologies/DeckRC' issues (state=all) to PDF with inlined images...";
           "Fetching issues page 1...";
           processing_line (demo_issue 1 "Crash on startup")]%string).
Proof. vm_compute. reflexivity. Qed.

Lemma comment_exception_aborts_the_run_witness :
  (exists fuel0, forall fuel, fuel0 <= fuel ->
     fetch_comments_for_issue broken_comments fuel
       (demo_issue 1 "Crash on startup") None
     = Some (Raise (Exception "Connection reset by peer"),
             [HttpGet (comments_request (demo_issue 1 "Crash on startup") None 1)])) /\
  (exists fuel0, forall fuel, fuel0 <= fuel ->
     fetch_comments_for_issue late_reset fuel
       (demo_issue 1 "Crash on startup") None
     = Some (Raise (Exception "Connection reset by peer"),
             [HttpGet (comments_request (demo_issue 1 "Crash on startup") None 1);
              HttpGet (comments_request (demo_issue 1 "Crash on startup") None 2)])).
Proof.
  split.
  - destruct (comment_exception_aborts_the_run broken_comments
                (demo_issue 1 "Crash on startup") [] "Connection reset by peer"
                ltac:(served) eq_refl) as [f Hf].
    exists f. intros fuel Hle. exact (proj1 (Hf fuel Hle)).
  - destruct (comment_exception_aborts_the_run late_reset
                (demo_issue 1 "Crash on startup")
                [[demo_comment "bob" "Same here"]] "Connection reset by peer"
                ltac:(served) eq_refl) as [f Hf].
    exists f. intros fuel Hle. exact (proj1 (Hf fuel Hle)).
Defined.

(** ** The run as a whole *)

Lemma next_exception_trace env owner repo state token fuel : forall g msg t,
  fetch_issues_next env fuel owner repo state token g
  = Some (Raise (Exception msg), t) ->
  exists pre q, t = pre ++ [HttpGet q].
Proof.
  induction fuel as [| fuel IH]; intros g msg t H; [discriminate |].
  rewrite next_S in H. destruct g as [page | page rest].
  - rewrite bindF_some in H. unfold get_issues_page, sess_get in H.
    destruct (issues_api env _) as [resp | m]; cbn in H.
    + destruct (negb (status_code resp =? 200)%nat); [discriminate |].
      destruct (json resp) as [[| i data] |]; try discriminate.
      destruct (fetch_issues_next env fuel owner repo state token
                  (InFor page (i :: data))) as [[o2 t2] |] eqn:E;
        [| discriminate].
      injection H as -> <-.
      destruct (IH _ _ _ E) as (pre & q & ->).
      eexists (_ :: _ :: pre), q. reflexivity.
    + injection H as <- <-. eexists [_], _. reflexivity.
  - destruct (next_in_page rest) as [[i rest'] |]; [discriminate |].
    eapply IH. exact H.
Qed.

(** X3: when a listing request raises after the pages [pages] were served
    (and the comments of their issues were returned), nothing catches the
    exception: the run ends with it, exit status 1, right after that
    request and without the error line that a refused page gets; the PDF
    files and log lines written are those of the issues of the pages
    served. *)
Theorem listing_exception_aborts_the_run env pages msg fc :
  serves_issue_pages env OWNER REPO STATE (GITHUB_TOKEN env) 1 pages ->
  issues_api env (issues_request OWNER REPO STATE (GITHUB_TOKEN env)
                    (1 + List.length pages)) = Fails msg ->
  forallb (comments_returned env fc) (non_pull_requests (concat pages)) = true ->
  exists fuel t pre,
    main env fuel = Some (Raise (Exception msg), t) /\
    exit_status (Raise (Exception msg)) = 1%Z /\
    t = pre ++ [HttpGet (issues_request OWNER REPO STATE (GITHUB_TOKEN env)
                           (1 + List.length pages))] /\
    written_pdfs t
    = map pdf_path_of (filter (renders env fc) (non_pull_requests (concat pages))) /\
    Forall2 logged (appended_lines t)
      (filter (fun i => negb (renders env fc i))
              (non_pull_requests (concat pages))).
Proof.
  intros Hp Hr Hcs.
  destruct (run_pages env OWNER REPO STATE (GITHUB_TOKEN env) []
              (Raise (Exception msg))
              [Print ("Fetching issues page "
                      ++ str_nat (1 + List.length pages) ++ "...")%string;
               HttpGet (issues_request OWNER REPO STATE (GITHUB_TOKEN env)
                          (1 + List.length pages))]
              pages 1 Hp) as [f Hf].
  { exists 2. apply run_raise. apply next_page_fails. exact Hr. }
  rewrite app_nil_r in Hf.
  destruct (main_loop_follows_generator env fc f (AtWhile 1) _ _ _ Hf Hcs 0 0)
    as (f' & t & Hm & Hw & Ha & pre & pre0 & fL & gL & tL & Ht & Ht0 & HL).
  cbn [step_of] in HL.
  destruct (next_exception_trace _ _ _ _ _ _ _ _ _ HL) as (pre' & q & ->).
  destruct (main_of_loop env f' (Raise (Exception msg)) 0 t Hm)
    as (pre1 & Hmain & Hpw & Hpa).
  rewrite app_nil_r in Hmain.
  assert (Hlast : HttpGet q
                  = HttpGet (issues_request OWNER REPO STATE (GITHUB_TOKEN env)
                               (1 + List.length pages))).
  { assert (Heq : (pre0 ++ pre') ++ [HttpGet q]
                  = (listing_trace OWNER REPO STATE (GITHUB_TOKEN env) 1
                       (List.length pages)
                     ++ [Print ("Fetching issues page "
                                ++ str_nat (1 + List.length pages) ++ "...")%string])
                    ++ [HttpGet (issues_request OWNER REPO STATE
                                   (GITHUB_TOKEN env) (1 + List.length pages))]).
    { rewrite <- !app_assoc. rewrite <- Ht0. reflexivity. }
    apply app_inj_tail in Heq. exact (proj2 Heq). }
  rewrite Hlast in Ht.
  exists f', (pre1 ++ t), (pre1 ++ pre ++ pre').
  split; [exact Hmain |]. split; [reflexivity |]. split; [| split].
  - rewrite Ht, <- !app_assoc. reflexivity.
  - rewrite written_pdfs_app, Hpw. exact Hw.
  - rewrite appended_lines_app, Hpa. exact Ha.
Qed.

Example dropped_listing_run :
  option_map (fun r => (fst r, exit_status (fst r), written_pdfs (snd r),
                        last (printed (snd r)) EmptyString))
             (main dropped_listing 10)
  = Some (Raise (Exception "Connection aborted"), 1%Z,
          ["Exported_PDFs/UAX-Technologies-DeckRC/issue_1.pdf";
           "Exported_PDFs/UAX-Technologies-DeckRC/issue_2.pdf"]%string,
          "Fetching issues page 2..."%string).
Proof. vm_compute. reflexivity. Qed.

Lemma listing_exception_aborts_the_run_witness :
  exists fuel t pre,
    main dropped_listing fuel = Some (Raise (Exception "Connection aborted"), t) /\
    t = pre ++ [HttpGet (issues_request OWNER REPO STATE None 2)] /\
    written_pdfs t
    = ["Exported_PDFs/UAX-Technologies-DeckRC/issue_1.pdf";
       "Exported_PDFs/UAX-Technologies-DeckRC/issue_2.pdf"]%string.
Proof.
  destruct (listing_exception_aborts_the_run dropped_listing
              [[demo_issue 1 "Crash on startup"; demo_issue 2 "Second"]]
              "Connection aborted" 2 ltac:(served) eq_refl
              ltac:(vm_compute; reflexivity))
    as (f & t & pre & Hmain & _ & Ht & Hpdf & _).
  exists f, t, pre. split; [exact Hmain |]. split; [exact Ht |].
  rewrite Hpdf. vm_compute. reflexivity.
Defined.



(** ** The document of one issue, once more *)

Lemma create_issue_pdf_trace env issue comments token clock :
  exists t0,
    quiet t0 /\
    inline_images_in_html env (full_html_of env issue comments) token
    = (Return (inlined_html_of env issue comments token), t0) /\
    create_issue_pdf env issue comments token clock
    = match render_error env issue comments token with
      | None =>
          (Return clock,
           t0 ++ [MakeDirs OUTPUT_DIR; Print (creating_line issue);
                  WritePdf (pdf_path_of issue)
                           (inlined_html_of env issue comments token)])
      | Some ex =>
          (Return (S clock),
           t0 ++ [MakeDirs OUTPUT_DIR; Print (creating_line issue);
                  MakeDirs OUTPUT_DIR;
                  AppendLine (path_join OUTPUT_DIR "error_log.txt")
                    ("[" ++ now_strftime env clock ++ "] "
                     ++ issue_error issue ex ++ nl)%string])
      end.
Proof.
  unfold create_issue_pdf, render_error, inlined_html_of.
  rewrite (proj1 (py_format_template env issue comments)).
  destruct (inline_images_in_html_spec env token (full_html_of env issue comments))
    as (soup' & t0 & Hrun & _ & _ & Hq).
  rewrite Hrun. exists t0. split; [exact Hq |]. split; [reflexivity |].
  unfold pdfkit_run.
  destruct (pdfkit_from_string env (soup_str env soup') (pdf_path_of issue)
              [("dpi", "300")%string]) as [ex |] eqn:E.
  - cbn [bind emit print ret raise try_except]. rewrite E.
    cbn [bind emit print ret raise try_except log_error app]. reflexivity.
  - cbn [bind emit print ret raise try_except]. rewrite E.
    cbn [bind emit print ret raise try_except log_error app]. reflexivity.
Qed.

(** ** The requests of the inliner *)

Section InlinerRequests.

Variable env : Environment.
Variable token : option string.

Local Abbreviation sess := (session_with_auth token).
Local Abbreviation src_of a := (attr_get "src" a EmptyString).

Lemma inline_img_requests a :
  requested (snd (inline_img env sess a))
  = if starts_with_http (src_of a) then [image_request (src_of a) token] else [].
Proof.
  unfold inline_img.
  destruct (starts_with_http (src_of a)); [| reflexivity].
  unfold sess_get.
  change (mkRequest (src_of a) [] (sess_headers sess))
    with (image_request (src_of a) token).
  destruct (image_api env (image_request (src_of a) token)) as [r | msg];
    [| reflexivity].
  cbn [bind emit ret try_except app].
  destruct (status_code r =? 200)%nat; reflexivity.
Qed.

Lemma web_sources_app l1 l2 :
  web_sources (l1 ++ l2) = web_sources l1 ++ web_sources l2.
Proof. unfold web_sources. rewrite map_app, filter_app. reflexivity. Qed.

Lemma inline_nodes_requests_of l :
  Forall (fun n =>
            requested (snd (inline_node env sess n))
            = map (fun src => image_request src token)
                  (web_sources (find_all_img n))) l ->
  requested (snd (inline_nodes env sess l))
  = map (fun src => image_request src token) (web_sources (find_all_imgs l)).
Proof.
  induction 1 as [| n l Hn _ IH]; [reflexivity |].
  destruct (inline_node_spec env token n) as (n' & t & Hrun & _).
  destruct (inline_nodes_spec env token l) as (l' & t' & Hrun' & _).
  { apply Forall_forall. intros m _. apply inline_node_spec. }
  rewrite inline_nodes_cons, find_all_imgs_cons, web_sources_app, map_app.
  rewrite Hrun in *. rewrite Hrun' in *. cbn [bind ret snd] in *.
  rewrite app_nil_r, requested_app, Hn, IH. reflexivity.
Qed.

Lemma inline_node_requests : forall n,
  requested (snd (inline_node env sess n))
  = map (fun src => image_request src token) (web_sources (find_all_img n)).
Proof.
  apply Node_induction; [reflexivity |].
  intros name attrs children IH.
  pose proof (inline_nodes_requests_of children IH) as Hch.
  destruct (inline_nodes_spec env token children) as (l' & t' & Hrun' & _).
  { apply Forall_forall. intros m _. apply inline_node_spec. }
  destruct (inline_img_spec env token attrs) as (a' & t & Hi & _).
  pose proof (inline_img_requests attrs) as Hreq.
  rewrite inline_node_Tag, find_all_img_Tag, web_sources_app, map_app.
  rewrite Hrun' in *. rewrite Hi in Hreq. cbn [snd] in *.
  destruct (String.eqb name "img").
  - rewrite Hi. cbn [bind ret snd]. rewrite app_nil_r, requested_app, Hreq, Hch.
    f_equal. unfold web_sources. cbn [map filter].
    destruct (starts_with_http (src_of attrs)); reflexivity.
  - cbn [bind ret snd app]. rewrite app_nil_r. exact Hch.
Qed.

Lemma inline_images_requests html :
  requested (snd (inline_images_in_html env html token))
  = map (fun src => image_request src token)
        (web_sources (find_all_imgs (BeautifulSoup env html "html.parser"))).
Proof.
  pose proof (inline_nodes_requests_of (BeautifulSoup env html "html.parser")) as H.
  destruct (inline_nodes_spec env token (BeautifulSoup env html "html.parser"))
    as (l' & t' & Hrun' & _).
  { apply Forall_forall. intros m _. apply inline_node_spec. }
  unfold inline_images_in_html. rewrite Hrun' in *. cbn [bind ret snd] in *.
  rewrite app_nil_r. apply H.
  apply Forall_forall. intros m _. apply inline_node_requests.
Qed.

Lemma data_url_is_not_fetched rest :
  starts_with_http ("data:" ++ rest) = false.
Proof. reflexivity. Qed.

Lemma all_inlined_fetched l l' ws :
  all_inlined env token l l' ws ->
  all_fetched env token l ->
  Forall (fun a => starts_with_http (src_of a) = false) l' /\ ws = [].
Proof.
  induction 1 as [| a a' w l l' ws' Ha _ IH]; intros Hall.
  - split; constructor.
  - inversion Hall as [| ? ? Hfetch Hrest]; subst.
    destruct (IH Hrest) as [IH1 ->].
    destruct Ha as [a r Hweb Hr Hs | a r Hweb Hr Hs | a msg Hweb Hr | a Hweb].
    + split; [| reflexivity]. constructor; [| exact IH1].
      rewrite attr_get_set_same. reflexivity.
    + destruct (Hfetch Hweb) as (r' & Hr' & Hs'). congruence.
    + destruct (Hfetch Hweb) as (r' & Hr' & _). congruence.
    + split; [| reflexivity]. constructor; assumption.
Qed.

End InlinerRequests.

(** X6: the inliner sends one request for each img tag whose source starts
    with http (in any letter case), in document order, and none for any
    other tag or source: nothing is fetched twice for one tag, nothing is
    retried after a failure, and two tags with the same source are fetched
    twice. *)
Theorem inline_images_requests_each_web_image_once env html token :
  requested (snd (inline_images_in_html env html token))
  = map (fun src => image_request src token)
        (web_sources (find_all_imgs (BeautifulSoup env html "html.parser"))) /\
  List.length (requested (snd (inline_images_in_html env html token)))
  = List.length
      (filter (fun a => starts_with_http (attr_get "src" a EmptyString))
              (find_all_imgs (BeautifulSoup env html "html.parser"))).
Proof.
  split; [apply inline_images_requests |].
  rewrite inline_images_requests, length_map. unfold web_sources.
  induction (find_all_imgs (BeautifulSoup env html "html.parser")) as [| a l IH];
    [reflexivity |].
  cbn [map filter].
  destruct (starts_with_http (attr_get "src" a EmptyString));
    cbn [List.length]; rewrite IH; reflexivity.
Qed.

(** X7: when every img tag of a parsed document whose source starts with
    http is answered with status 200, the loop of the inliner prints no
    warning, and applied to its own result it sends no request and changes
    nothing: an embedded source begins with data: and is not fetched
    again. *)
Theorem inline_again_changes_nothing env token soup :
  all_fetched env token (find_all_imgs soup) ->
  exists soup' t,
    inline_nodes env (session_with_auth token) soup = (Return soup', t) /\
    printed t = [] /\
    inline_nodes env (session_with_auth token) soup' = (Return soup', []).
Proof.
  intros Hall.
  destruct (inline_nodes_spec env token soup) as (soup' & t & Hrun & Ha & _).
  { apply Forall_forall. intros m _. apply inline_node_spec. }
  destruct (all_inlined_fetched env token _ _ _ Ha Hall) as [Hlocal Hws].
  exists soup', t. split; [exact Hrun |]. split; [exact Hws |].
  apply inline_nodes_local. exact Hlocal.
Qed.

Example fetched_soup_run :
  inline_nodes three_issues (session_with_auth None) fetched_soup
  = (Return
       [Tag "p" []
          [Tag "img" [("src", "data:image/jpeg;base64,TWFu")] [];
           Text "and";
           Tag "img" [("alt", "logo"); ("src", "logo.png")] [];
           Tag "img" [("src", "data:image/png;base64,aGk=")] []]]%string,
     [HttpGet (image_request "https://x/y.png" None);
      HttpGet (image_request "http://x/bare.png" None)]).
Proof. vm_compute. reflexivity. Qed.

Lemma inline_again_changes_nothing_witness :
  exists soup' t,
    inline_nodes three_issues (session_with_auth None) fetched_soup
    = (Return soup', t) /\
    printed t = [] /\
    inline_nodes three_issues (session_with_auth None) soup' = (Return soup', []).
Proof.
  apply (inline_again_changes_nothing three_issues None fetched_soup).
  unfold all_fetched. vm_compute find_all_imgs.
  repeat constructor; intros H; try discriminate H;
    eexists; split; reflexivity.
Defined.
(** ** What the inliner leaves alone *)

Section Untouched.

Variable env : Environment.
Variable token : option string.

Local Abbreviation sess := (session_with_auth token).

Lemma inline_nodes_keep l :
  Forall (fun n => forall n' t,
            inline_node env sess n = (Return n', t) -> keeps_local_refs n n') l ->
  forall l' t,
    inline_nodes env sess l = (Return l', t) -> Forall2 keeps_local_refs l l'.
Proof.
  induction 1 as [| n l Hn _ IH]; intros l' t Hrun.
  - injection Hrun as <- _. constructor.
  - rewrite inline_nodes_cons in Hrun.
    destruct (inline_node env sess n) as [[n' | e] t1] eqn:En;
      cbn [bind] in Hrun; [| discriminate].
    destruct (inline_nodes env sess l) as [[l1 | e] t2] eqn:El;
      cbn [bind ret] in Hrun; [| discriminate].
    injection Hrun as <- _.
    constructor; [exact (Hn _ _ eq_refl) | exact (IH _ _ eq_refl)].
Qed.

Lemma inline_node_keeps : forall n n' t,
  inline_node env sess n = (Return n', t) -> keeps_local_refs n n'.
Proof.
  apply (Node_induction (fun n => forall n' t,
           inline_node env sess n = (Return n', t) -> keeps_local_refs n n')).
  - intros s n' t H. injection H as <- _. constructor.
  - intros name attrs children IH n' t Hrun.
    rewrite inline_node_Tag in Hrun.
    destruct (if String.eqb name "img" then inline_img env sess attrs
              else ret attrs) as [[attrs' | e] t1] eqn:Ea;
      cbn [bind] in Hrun; [| discriminate].
    destruct (inline_nodes env sess children) as [[children' | e] t2] eqn:Ec;
      cbn [bind ret] in Hrun; [| discriminate].
    injection Hrun as <- _.
    constructor; [| exact (inline_nodes_keep children IH _ _ Ec)].
    unfold is_web_img. intros Hweb.
    destruct (String.eqb name "img"); cbn [andb] in Hweb.
    + unfold inline_img in Ea. rewrite Hweb in Ea.
      injection Ea as <- _. reflexivity.
    + injection Ea as <- _. reflexivity.
Qed.

End Untouched.

(** C7, as the code has it. For every fragment the inliner returns the
    serialisation of a document that is the parsed fragment up to the
    attributes of the img tags whose source starts with http: texts, the
    other tags and the img tags with any other source (relative, or
    embedded already) keep their place and their attributes, also beside
    images that are fetched, and no request goes to a source that does not
    start with http. When the parsed fragment has no img tag, or none whose
    source starts with http, there is no request and no warning and the
    result is the serialisation of the parsed fragment itself; it is the
    input string whenever serialising the parse of the input gives the
    input back. *)
Theorem inline_images_keeps_local_documents env html token :
  (exists soup' t,
     inline_images_in_html env html token = (Return (soup_str env soup'), t) /\
     Forall2 keeps_local_refs (BeautifulSoup env html "html.parser") soup' /\
     Forall (fun q => starts_with_http (req_url q) = true) (requested t)) /\
  (Forall (fun a => starts_with_http (attr_get "src" a EmptyString) = false)
          (find_all_imgs (BeautifulSoup env html "html.parser")) ->
   inline_images_in_html env html token
   = (Return (soup_str env (BeautifulSoup env html "html.parser")), []) /\
   (soup_str env (BeautifulSoup env html "html.parser") = html ->
    inline_images_in_html env html token = (Return html, []))).
Proof.
  split.
  - destruct (inline_nodes_spec env token (BeautifulSoup env html "html.parser"))
      as (soup' & t & Hrun & _).
    { apply Forall_forall. intros n _. apply inline_node_spec. }
    exists soup', t. split; [| split].
    + unfold inline_images_in_html. rewrite Hrun. cbn [bind ret].
      rewrite app_nil_r. reflexivity.
    + apply (inline_nodes_keep env token _
               ltac:(apply Forall_forall; intros n _; apply inline_node_keeps)
               _ _ Hrun).
    + pose proof (inline_images_requests env token html) as Hreq.
      unfold inline_images_in_html in Hreq. rewrite Hrun in Hreq.
      cbn [bind ret snd] in Hreq. rewrite app_nil_r in Hreq. rewrite Hreq.
      apply Forall_forall. intros q Hq. apply in_map_iff in Hq.
      destruct Hq as (src & <- & Hsrc). unfold web_sources in Hsrc.
      apply filter_In in Hsrc. exact (proj2 Hsrc).
  - intros H.
    assert (Hrun : inline_images_in_html env html token
                   = (Return (soup_str env (BeautifulSoup env html "html.parser")), [])).
    { unfold inline_images_in_html.
      rewrite (inline_nodes_local env token _ H). reflexivity. }
    split; [exact Hrun |]. intros Hround. rewrite Hrun, Hround. reflexivity.
Qed.

(** In the gallery, the local image keeps its attributes beside the images
    that are fetched; a fragment with a local image only, and one without
    image, come back as they were given. *)
Lemma inline_images_keeps_local_documents_witness :
  (exists soup' t a1 a2 a4 a5,
     inline_images_in_html three_issues gallery_html None
     = (Return (soup_str three_issues soup'), t) /\
     soup' = [Tag "p" []
                [Tag "img" a1 []; Tag "img" a2 [];
                 Tag "img" [("alt", "logo"); ("src", "logo.png")] [];
                 Tag "img" a4 []; Tag "img" a5 []]]%string /\
     map req_url (requested t)
     = ["https://x/y.png"; "https://x/missing.png"; "HTTPS://x/down.png";
        "http://x/bare.png"]%string /\
     Forall (fun q => starts_with_http (req_url q) = true) (requested t)) /\
  inline_images_in_html three_issues local_html None = (Return local_html, []) /\
  inline_images_in_html three_issues "<p>hi</p>" None
  = (Return "<p>hi</p>"%string, []).
Proof.
  split; [| split].
  - destruct (proj1 (inline_images_keeps_local_documents three_issues
                       gallery_html None)) as (soup' & t & Hrun & Hkeep & Hreq).
    change (BeautifulSoup three_issues gallery_html "html.parser")
      with gallery_soup in Hkeep.
    unfold gallery_soup in Hkeep.
    repeat match goal with
           | H : Forall2 keeps_local_refs (_ :: _) _ |- _ =>
               inversion H; subst; clear H
           | H : Forall2 keeps_local_refs [] _ |- _ =>
               inversion H; subst; clear H
           | H : keeps_local_refs (Tag _ _ _) _ |- _ =>
               inversion H; subst; clear H
           end.
    repeat match goal with
           | H : is_web_img _ _ = false -> _ = _ |- _ =>
               first [ specialize (H eq_refl); subst | clear H ]
           end.
    do 6 eexists. split; [exact Hrun |]. split; [reflexivity |].
    split; [| exact Hreq].
    rewrite gallery_run in Hrun. injection Hrun as _ <-. reflexivity.
  - apply (proj2 (inline_images_keeps_local_documents three_issues local_html None)
             ltac:(vm_compute; repeat constructor)).
    vm_compute. reflexivity.
  - apply (proj2 (inline_images_keeps_local_documents three_issues "<p>hi</p>" None)
             ltac:(vm_compute; constructor)).
    vm_compute. reflexivity.
Defined.

(** ** The session of the run *)












(** ** The file names of a run *)

Lemma append_inj_l (p x y : string) : (p ++ x = p ++ y)%string -> x = y.
Proof.
  induction p as [| c p IH]; cbn; intros H; [exact H |].
  injection H as H. apply IH. exact H.
Qed.

Lemma length_append (x y : string) :
  String.length (x ++ y) = String.length x + String.length y.
Proof. induction x as [| c x IH]; cbn; [reflexivity | rewrite IH; reflexivity]. Qed.

Lemma append_inj_r (s : string) : forall x y : string,
  (x ++ s = y ++ s)%string -> x = y.
Proof.
  induction x as [| c x IH]; intros [| d y] H.
  - reflexivity.
  - apply (f_equal String.length) in H. cbn in H.
    rewrite length_append in H. lia.
  - apply (f_equal String.length) in H. cbn in H.
    rewrite length_append in H. lia.
  - cbn in H. injection H as -> H. f_equal. apply IH. exact H.
Qed.

Lemma str_Z_inj a b : str_Z a = str_Z b -> a = b.
Proof.
  unfold str_Z. intros H.
  assert (Hnil : forall z, Z.to_int z <> Decimal.Pos Decimal.Nil
                           /\ Z.to_int z <> Decimal.Neg Decimal.Nil).
  { intros [| p | p]; cbn; split; try discriminate; intros E; injection E as E;
      exact (DecimalPos.Unsigned.to_uint_nonnil p E). }
  apply DecimalZ.to_int_inj.
  assert (Ha := NilZero.isi (Z.to_int a) (proj1 (Hnil a)) (proj2 (Hnil a))).
  assert (Hb := NilZero.isi (Z.to_int b) (proj1 (Hnil b)) (proj2 (Hnil b))).
  rewrite H in Ha. rewrite Ha in Hb. injection Hb as Hb. exact Hb.
Qed.

(** X9: the PDF files of two issues with different numbers have different
    paths, so no issue of a repository overwrites the PDF of another one,
    and no PDF is written over the error log. *)
Theorem pdf_paths_do_not_collide i j :
  number i <> number j ->
  pdf_path_of i <> pdf_path_of j /\
  pdf_path_of i <> path_join OUTPUT_DIR "error_log.txt".
Proof.
  intros Hne. split.
  - intros H. apply Hne. unfold pdf_path_of, path_join in H.
    apply append_inj_l, append_inj_l, append_inj_l in H.
    apply append_inj_r in H. apply str_Z_inj. exact H.
  - unfold pdf_path_of, path_join. intros H.
    apply append_inj_l, append_inj_l in H. discriminate H.
Qed.

Lemma pdf_paths_do_not_collide_witness :
  pdf_path_of (demo_issue 1 "Crash on startup")
  <> pdf_path_of (demo_issue 2 "Second") /\
  pdf_path_of (demo_issue 1 "Crash on startup")
  <> path_join OUTPUT_DIR "error_log.txt".
Proof.
  apply (pdf_paths_do_not_collide (demo_issue 1 "Crash on startup")
           (demo_issue 2 "Second")).
  discriminate.
Defined.

(** ** The layout of the document *)

Lemma piece_eqb_eq p q : piece_eqb p q = true -> p = q.
Proof.
  destruct p as [c | n], q as [d | m]; cbn; intros H; try discriminate.
  - apply Ascii.eqb_eq in H. congruence.
  - apply String.eqb_eq in H. congruence.
Qed.

Lemma is_prefix_spec : forall seg ps,
  is_prefix seg ps = true -> exists B, ps = seg ++ B.
Proof.
  induction seg as [| p seg IH]; intros ps H; [exists ps; reflexivity |].
  destruct ps as [| q ps]; [discriminate |].
  cbn [is_prefix] in H. apply andb_true_iff in H. destruct H as [Hp Hs].
  apply piece_eqb_eq in Hp. subst q.
  destruct (IH ps Hs) as [B ->]. exists B. reflexivity.
Qed.

Lemma occurs_spec seg : forall ps,
  occurs seg ps = true -> exists A B, ps = A ++ seg ++ B.
Proof.
  induction ps as [| q ps IH]; intros H.
  - cbn [occurs] in H. rewrite orb_false_r in H.
    destruct (is_prefix_spec _ _ H) as [B HB]. exists [], B. exact HB.
  - cbn [occurs] in H. apply orb_true_iff in H. destruct H as [H | H].
    + destruct (is_prefix_spec _ _ H) as [B HB]. exists [], B. exact HB.
    + destruct (IH H) as (A & B & ->). exists (q :: A), B. reflexivity.
Qed.

Lemma render_split kwargs : forall A C s,
  render (A ++ C) kwargs = Return s ->
  exists a c, render A kwargs = Return a /\ render C kwargs = Return c
              /\ s = (a ++ c)%string.
Proof.
  induction A as [| [x | n] A IH]; intros C s H.
  - exists EmptyString, s. auto.
  - cbn [app render] in *.
    destruct (render (A ++ C) kwargs) as [s' | e] eqn:E; [| discriminate].
    injection H as <-.
    destruct (IH C s' E) as (a & c & Ha & Hc & ->).
    exists (String x a), c. rewrite Ha. auto.
  - cbn [app render] in *. destruct n as [| ch n']; [discriminate |].
    destruct (kwargs_get (String ch n') kwargs) as [v |]; [| discriminate].
    destruct (render (A ++ C) kwargs) as [s' | e] eqn:E; [| discriminate].
    injection H as <-.
    destruct (IH C s' E) as (a & c & Ha & Hc & ->).
    exists (v ++ a)%string, c. rewrite Ha. split; [reflexivity |].
    split; [exact Hc | rewrite append_assoc; reflexivity].
Qed.

(** Lines of the template, filled in, are part of the document. *)
Lemma document_contains env issue comments lines part :
  occurs (fst (markup None lines)) (fst (markup None HTML_TEMPLATE)) = true ->
  render (fst (markup None lines)) (template_kwargs env issue comments)
  = Return part ->
  contains (full_html_of env issue comments) part.
Proof.
  intros Hocc Hpart.
  destruct (occurs_spec _ _ Hocc) as (A & B & Hsplit).
  pose proof (proj2 (py_format_template env issue comments)) as Hdoc.
  rewrite Hsplit in Hdoc.
  destruct (render_split _ _ _ _ Hdoc) as (a & c & _ & Hc & ->).
  destruct (render_split _ _ _ _ Hc) as (p & b & Hp & _ & ->).
  rewrite Hpart in Hp. injection Hp as <-.
  exists a, b. reflexivity.
Qed.

(** X10: for an issue record that has none of the optional keys (title,
    state, created_at, locked, user, milestone) and no label or assignee,
    the document is headed Issue #<number>: Issue <number> and its block of
    metadata shows the state UNKNOWN, an empty creation time, the author
    unknown, Locked: No and None for the milestone, the labels and the
    assignees. *)
Theorem missing_keys_get_defaults env issue comments :
  title issue = None -> state issue = None -> created_at issue = None ->
  locked issue = None -> user issue = None -> milestone issue = None ->
  labels issue = [] -> assignees issue = [] ->
  contains (full_html_of env issue comments)
    ("<h1>Issue #" ++ str_Z (number issue) ++ ": Issue "
     ++ str_Z (number issue) ++ "</h1>") /\
  contains (full_html_of env issue comments) metadata_defaults.
Proof.
  intros Ht Hs Hc Hl Hu Hm Hla Has. split.
  - apply (document_contains env issue comments
             "<h1>Issue #{issue_number}: {issue_title}</h1>");
      [vm_compute; reflexivity |].
    unfold template_kwargs. rewrite Ht. reflexivity.
  - apply (document_contains env issue comments metadata_lines);
      [vm_compute; reflexivity |].
    unfold template_kwargs. rewrite Hs, Hc, Hl, Hu, Hm, Hla, Has. reflexivity.
Qed.

Lemma missing_keys_get_defaults_witness :
  contains (full_html_of three_issues (bare_issue 4) [])
           "<h1>Issue #4: Issue 4</h1>" /\
  contains (full_html_of three_issues (bare_issue 4) []) metadata_defaults.
Proof.
  exact (missing_keys_get_defaults three_issues (bare_issue 4) []
           eq_refl eq_refl eq_refl eq_refl eq_refl eq_refl eq_refl eq_refl).
Defined.

(** X11: the document of an issue shows, in its block of comments, the
    number of comments handed to [create_issue_pdf] and then one snippet for
    each comment, in the order of the list, separated by line breaks; with
    no comment the block shows the count 0 and no snippet. *)
Theorem document_shows_the_comments env issue comments :
  contains (full_html_of env issue comments) (comments_block env comments) /\
  comments_block env []
  = ("  <div class=" ++ dq ++ "comments" ++ dq ++ ">" ++ nl
     ++ "    <h2>Comments (0)</h2>" ++ nl ++ "    " ++ nl ++ "  </div>" ++ nl)%string.
Proof.
  split; [| reflexivity].
  apply (document_contains env issue comments comments_lines);
    [vm_compute; reflexivity |].
  unfold comments_block.
  set (count := str_nat (List.length comments)).
  set (block := join nl (map (comment_snippet env) comments)).
  cbn. reflexivity.
Qed.

(** ** A refused page of comments, seen from the document *)

(** X12: when a page of comments is refused after the pages [pages] were
    served and the renderer accepts the document, the issue is exported all
    the same: the PDF is rendered from the document made with the comments
    of the pages served only, whose block of comments counts just those;
    the refusal leaves one line on the console and nothing in the error
    log. *)
Theorem refused_comments_are_exported_partially env issue pages r :
  serves_comment_pages env issue (GITHUB_TOKEN env) 1 pages ->
  refuses (comments_api env (comments_request issue (GITHUB_TOKEN env)
                               (1 + List.length pages))) r ->
  render_error env issue (concat pages) (GITHUB_TOKEN env) = None ->
  exists fuel0, forall fuel clock, fuel0 <= fuel ->
    exists t,
      process_issue env fuel issue clock = Some (Return clock, t) /\
      In (Print (comments_error issue r)) t /\
      In (WritePdf (pdf_path_of issue)
            (inlined_html_of env issue (concat pages) (GITHUB_TOKEN env))) t /\
      written_pdfs t = [pdf_path_of issue] /\
      appended_lines t = [] /\
      contains (full_html_of env issue (concat pages))
               (comments_block env (concat pages)).
Proof.
  intros Hp Hr Hrender.
  destruct (loop_pages env issue (GITHUB_TOKEN env) (Return (concat pages))
              [HttpGet (comments_request issue (GITHUB_TOKEN env)
                          (1 + List.length pages));
               Print (comments_error issue r)]
              pages [] 1 Hp) as [f Hf].
  { exists 1. apply loop_refused. exact Hr. }
  exists f. intros fuel clock Hle.
  assert (Hfetch := loop_mono env issue (GITHUB_TOKEN env) f fuel _ _ _ Hf Hle).
  cbn [app] in Hfetch.
  destruct (create_issue_pdf_trace env issue (concat pages) (GITHUB_TOKEN env)
              clock) as (t0 & Hq0 & _ & Hcreate).
  rewrite Hrender in Hcreate.
  assert (Hqc : quiet (comments_trace issue (GITHUB_TOKEN env) 1
                         (List.length pages)
                       ++ [HttpGet (comments_request issue (GITHUB_TOKEN env)
                                      (1 + List.length pages));
                           Print (comments_error issue r)])).
  { eapply loop_quiet. exact Hfetch. }
  destruct (quiet_writes_nothing _ Hqc) as [Hwc Hac].
  destruct (quiet_writes_nothing _ Hq0) as [Hw0 Ha0].
  exists (Print (processing_line issue)
          :: (comments_trace issue (GITHUB_TOKEN env) 1 (List.length pages)
              ++ [HttpGet (comments_request issue (GITHUB_TOKEN env)
                             (1 + List.length pages));
                  Print (comments_error issue r)])
             ++ t0 ++ [MakeDirs OUTPUT_DIR; Print (creating_line issue);
                       WritePdf (pdf_path_of issue)
                         (inlined_html_of env issue (concat pages)
                            (GITHUB_TOKEN env))]).
  split; [| split; [| split; [| split; [| split]]]].
  - unfold process_issue, fetch_comments_for_issue.
    rewrite bindF_some. cbn [print emit]. rewrite Hfetch. cbn [bindF].
    rewrite Hcreate. reflexivity.
  - right. apply in_or_app. left. apply in_or_app. right.
    right. left. reflexivity.
  - right. apply in_or_app. right. apply in_or_app. right.
    right. right. left. reflexivity.
  - cbn [written_pdfs].
    rewrite written_pdfs_app, Hwc, written_pdfs_app, Hw0. reflexivity.
  - cbn [appended_lines].
    rewrite appended_lines_app, Hac, appended_lines_app, Ha0. reflexivity.
  - apply (document_contains env issue (concat pages) comments_lines);
      [vm_compute; reflexivity |].
    unfold comments_block.
    set (count := str_nat (List.length (concat pages))).
    set (block := join nl (map (comment_snippet env) (concat pages))).
    cbn. reflexivity.
Qed.

Example partial_comments_document :
  exists pre post,
    full_html_of partial_comments (demo_issue 1 "Crash on startup")
      [demo_comment "bob" "Same here"; demo_comment "carol" "Me too";
       demo_comment "dave" "Any news?"]
    = (pre ++ "<h2>Comments (3)</h2>" ++ post)%string.
Proof.
  destruct (document_contains partial_comments (demo_issue 1 "Crash on startup")
              [demo_comment "bob" "Same here"; demo_comment "carol" "Me too";
               demo_comment "dave" "Any news?"]
              "<h2>Comments ({comments_count})</h2>" "<h2>Comments (3)</h2>")
    as (pre & post & H); [vm_compute; reflexivity | reflexivity |].
  exists pre, post. exact H.
Qed.

Lemma refused_comments_are_exported_partially_witness :
  exists fuel0, forall fuel clock, fuel0 <= fuel ->
    exists t,
      process_issue partial_comments fuel (demo_issue 1 "Crash on startup") clock
      = Some (Return clock, t) /\
      In (Print "Error fetching comments for issue #1: 502"%string) t /\
      written_pdfs t
      = ["Exported_PDFs/UAX-Technologies-DeckRC/issue_1.pdf"%string] /\
      appended_lines t = [].
Proof.
  destruct (refused_comments_are_exported_partially partial_comments
              (demo_issue 1 "Crash on startup")
              [[demo_comment "bob" "Same here"; demo_comment "carol" "Me too"];
               [demo_comment "dave" "Any news?"]]
              (mkResponse 502 "Bad Gateway" [] EmptyString [])
              ltac:(served) ltac:(served) eq_refl) as [f Hf].
  exists f. intros fuel clock Hle.
  destruct (Hf fuel clock Hle) as (t & Hrun & Hprint & _ & Hw & Ha & _).
  exists t. split; [exact Hrun |]. split; [exact Hprint |].
  split; [exact Hw | exact Ha].
Defined.
